(** * prep_data: survey table preparation (prep_data_v2.py)

    A shallow embedding of the two classes of [prep_data_v2.py]: the loader
    [DataAccessor] and the pandas accessor [PreppedData], with the pandas
    operations they call written out on a small table model.

    What the model covers.
    - A cell is a Python string, a Python integer, or one of the three absent
      values pandas knows ([None], [np.nan], [pd.NA]).  Finite floats are left
      out, and with them float64 columns: a column is of dtype [object] or
      [int64].
    - Column labels are ASCII strings.
    - The values written into a table ([blank_val], [miss_val],
      [log_skip_val], [change_to_val]) are Python strings, as their defaults
      are.  The markers looked for may be any cell.
    - pandas is the 2.x line the loader needs ([DataFrame.map]).
    - [pd.to_numeric] and the cast of one value to a dtype ([astype]) are
      parameters of the development. *)

From Stdlib Require Import String Ascii List ZArith Bool Lia DecimalString.
From Stdlib Require Import Sorting.Mergesort Orders Permutation.
Import ListNotations.
Open Scope string_scope.

(** ** Python built-ins *)

Module Py.

(** [str.upper] on ASCII text. *)
Definition upper_ascii (c : ascii) : ascii :=
  let n := nat_of_ascii c in
  if (97 <=? n)%nat && (n <=? 122)%nat then ascii_of_nat (n - 32) else c.

Fixpoint upper (s : string) : string :=
  match s with
  | EmptyString => EmptyString
  | String c r => String (upper_ascii c) (upper r)
  end.

(** [s.startswith(p)]. *)
Definition startswith (p s : string) : bool := String.prefix p s.

(** [sub in s] on strings. *)
Fixpoint contains (sub s : string) : bool :=
  String.prefix sub s ||
  match s with
  | EmptyString => false
  | String _ r => contains sub r
  end.

(** [x in l] on a list of strings. *)
Definition mem (x : string) (l : list string) : bool :=
  existsb (String.eqb x) l.

(** [str(n)] for an integer. *)
Definition str_of_int (z : Z) : string :=
  NilZero.string_of_int (Z.to_int z).

(** [l.remove(x)]: drops the first occurrence, [None] stands for the
    [ValueError] raised when there is none. *)
Fixpoint list_remove (x : string) (l : list string) : option (list string) :=
  match l with
  | [] => None
  | y :: r =>
      if String.eqb x y then Some r
      else option_map (cons y) (list_remove x r)
  end.

End Py.

(** ** Tables *)

Inductive cell : Type :=
| Str (s : string)
| Int (z : Z)
| PyNone
| NaN
| NA.

Inductive dtype : Type := DObject | DInt64.

Record column : Type := mkcol {
  label : string;
  dtype_of : dtype;
  values : list cell
}.

Definition table : Type := list column.

Definition columns (t : table) : list string := map label t.
Definition dtypes (t : table) : list dtype := map dtype_of t.

(** Number of rows of each column, in column order. *)
Definition shape (t : table) : list nat :=
  map (fun c => length (values c)) t.

Definition cell_eqb (a b : cell) : bool :=
  match a, b with
  | Str s, Str s' => String.eqb s s'
  | Int z, Int z' => Z.eqb z z'
  | PyNone, PyNone => true
  | NaN, NaN => true
  | NA, NA => true
  | _, _ => false
  end.

Definition dtype_eqb (a b : dtype) : bool :=
  match a, b with
  | DObject, DObject => true
  | DInt64, DInt64 => true
  | _, _ => false
  end.

(** [pd.isna] on one value. *)
Definition isna (v : cell) : bool :=
  match v with
  | PyNone | NaN | NA => true
  | _ => false
  end.

(** Can a column of dtype [d] hold [v] as it is? *)
Definition holds (d : dtype) (v : cell) : bool :=
  match d, v with
  | DObject, _ => true
  | DInt64, Int _ => true
  | DInt64, _ => false
  end.

(** The dtype of a column of dtype [d] after [vs] has been written into it:
    it is upcast to [object] when some value does not fit. *)
Definition fit (d : dtype) (vs : list cell) : dtype :=
  if forallb (holds d) vs then d else DObject.

(** ** pandas operations *)

Module Pandas.

(** The mask of [replace] for one key: an absent key selects the absent
    cells, any other key the cells equal to it. *)
Definition mask (k v : cell) : bool :=
  if isna k then isna v else negb (isna v) && cell_eqb k v.

(** [replace] with a dict, on one cell.  The masks of all keys are taken
    on the values as they were, then the pairs are written in order. *)
Definition replace_cell (d : list (cell * string)) (v : cell) : cell :=
  fold_left (fun acc p => if mask (fst p) v then Str (snd p) else acc) d v.

Definition replace_col (d : list (cell * string)) (c : column) : column :=
  let vs := map (replace_cell d) (values c) in
  mkcol (label c) (fit (dtype_of c) vs) vs.

(** [df.replace(d, inplace=True)]. *)
Definition replace (d : list (cell * string)) (t : table) : table :=
  map (replace_col d) t.

(** [{k: v for k in keys}]. *)
Definition dict_of (keys : list cell) (v : string) : list (cell * string) :=
  map (fun k => (k, v)) keys.

Module StringOrder <: TotalLeBool.
Definition t := string.
Definition leb := String.leb.
Definition leb_total : forall a1 a2, leb a1 a2 = true \/ leb a2 a1 = true :=
  String.leb_total.
End StringOrder.

Module StrSort := Sort StringOrder.

(** [Index.difference]: the labels of [a] that are not in [b], without
    repetition, sorted. *)
Definition difference (a b : list string) : list string :=
  StrSort.sort
    (nodup string_dec (filter (fun l => negb (Py.mem l b)) a)).

(** [df[labels]]: the columns carrying each of the labels, in the order of
    the labels. *)
Definition getitem (t : table) (labels : list string) : table :=
  flat_map (fun l => filter (fun c => String.eqb (label c) l) t) labels.

(** [np.where(isna(that), this, that)] over two aligned columns. *)
Definition where_notna (this that : list cell) : list cell :=
  map (fun p => if isna (snd p) then fst p else snd p) (combine this that).

Definition update_col (c o : column) : column :=
  if forallb isna (values o) then c
  else
    let vs := where_notna (values c) (values o) in
    mkcol (label c) (fit (dtype_of c) vs) vs.

(** [df.update(other)]: for every label the two frames share, the cells
    of [other] that are not absent overwrite those of [df]. *)
Definition update (t other : table) : table :=
  map (fun c =>
         match find (fun o => String.eqb (label o) (label c)) other with
         | Some o => update_col c o
         | None => c
         end) t.

End Pandas.

(** ** PreppedData *)

Module PreppedData.

Import Pandas.

Definition extend (base additions : list cell) : list cell :=
  if (0 <? length additions)%nat then (base ++ additions)%list else base.

Definition blank_list : list cell :=
  [Str " "; Str ""; Str "."; Str "nan"; Str "NaN"; NA; NaN].

Definition update_blanks (blank_val : string) (blank_additions : list cell)
    (t : table) : table :=
  let blank_list := extend blank_list blank_additions in
  replace (dict_of blank_list blank_val) t.

Definition is_name_col (col : string) : bool := Py.contains "NAME" col.

Definition update_missing (miss_val log_skip_val : string)
    (miss_additions logskip_additions : list cell) (blank : bool)
    (t : table) : table :=
  let name_cols := filter is_name_col (columns t) in
  let not_name_cols := difference (columns t) name_cols in
  let subset := getitem t not_name_cols in
  let subset := replace [(Str "M", ".M"); (Str "L", ".L")] subset in
  let t := update t subset in
  let miss_lst :=
    if blank then [Str ".M"]
    else [Str ".M"; Str ""; Str " "; Str "nan"; Str "NaN"; NA; NaN; Str "."] in
  let miss_lst := extend miss_lst miss_additions in
  let t := replace (dict_of miss_lst miss_val) t in
  if existsb (fun col => Py.mem col (columns t)) name_cols then
    let log_skip := extend [Str ".L"] logskip_additions in
    replace (dict_of log_skip log_skip_val) t
  else
    let log_skip := extend [Str ".L"; Str "L"] logskip_additions in
    replace (dict_of log_skip log_skip_val) t.

(** The exceptions that reach a caller. *)
Inductive exn : Type := ValueError | AttributeError.

(** What a call that may raise leaves behind: the table it returns, or the
    exception together with [self.data] as it stands at that point. *)
Inductive outcome : Type :=
| Returned (t : table)
| Raised (e : exn) (t : table).

Definition data_of (o : outcome) : table :=
  match o with
  | Returned t => t
  | Raised _ t => t
  end.

(** The [exclude_cols] argument: one label or a list of labels. *)
Inductive str_or_list : Type :=
| OneStr (s : string)
| StrList (l : list string).

(** [df.dtypes.to_dict()] and the lookup in it; of two entries under one
    key the later one stands. *)
Definition to_dict (t : table) : list (string * dtype) :=
  map (fun c => (label c, dtype_of c)) t.

Fixpoint dict_get (k : string) (d : list (string * dtype)) : option dtype :=
  match d with
  | [] => None
  | (k', v) :: r =>
      match dict_get k r with
      | Some x => Some x
      | None => if String.eqb k k' then Some v else None
      end
  end.

Fixpoint mapM {A B : Type} (f : A -> option B) (l : list A) : option (list B) :=
  match l with
  | [] => Some []
  | x :: r =>
      match f x, mapM f r with
      | Some y, Some ys => Some (y :: ys)
      | _, _ => None
      end
  end.

(** [astype] of one column: nothing to do when the column has the dtype
    already, else every value is cast ([coerce]); one value that cannot be
    cast makes the whole call raise. *)
Definition astype_col (coerce : dtype -> cell -> option cell) (d : dtype)
    (c : column) : option column :=
  if dtype_eqb (dtype_of c) d then Some c
  else option_map (mkcol (label c) d) (mapM (coerce d) (values c)).

(** [df.astype(dtype_dict)]. *)
Definition astype (coerce : dtype -> cell -> option cell)
    (dtype_dict : list (string * dtype)) (t : table) : option table :=
  mapM (fun c =>
          match dict_get (label c) dtype_dict with
          | Some d => astype_col coerce d c
          | None => Some c
          end) t.

Definition update_other_missing (coerce : dtype -> cell -> option cell)
    (add_miss_val : cell) (change_to_val : string)
    (exclude_cols : str_or_list) (t : table) : outcome :=
  let exclude_cols :=
    match exclude_cols with
    | OneStr s => [s]
    | StrList l => l
    end in
  let dtype_dict := to_dict t in
  let name_cols := filter is_name_col (columns t) in
  let name_cols :=
    if (0 <? length exclude_cols)%nat then (name_cols ++ exclude_cols)%list
    else name_cols in
  let not_name_cols := difference (columns t) name_cols in
  let subset := getitem t not_name_cols in
  let subset := replace [(add_miss_val, change_to_val)] subset in
  let t := update t subset in
  match astype coerce dtype_dict t with
  | Some t' => Returned t'
  | None => Raised ValueError t
  end.

Definition capitalize_cols (t : table) : table :=
  map (fun c => mkcol (Py.upper (label c)) (dtype_of c) (values c)) t.

Definition fix_index (t : table) : table :=
  let t := filter (fun c => negb (Py.startswith "unnamed" (label c))) t in
  filter (fun c => negb (Py.startswith "UNNAMED" (label c))) t.

(** [str(v)]. *)
Definition py_str (v : cell) : string :=
  match v with
  | Str s => s
  | Int z => Py.str_of_int z
  | PyNone => "None"
  | NaN => "nan"
  | NA => "<NA>"
  end.

Fixpoint drop_zeros (r : list ascii) : list ascii :=
  match r with
  | "0"%char :: r' => drop_zeros r'
  | _ => r
  end.

(** A match of [[.][0]+] that ends where the text ends; the text is given
    last character first, and so is what is left of it. *)
Definition cut_dot_zeros (r : list ascii) : option (list ascii) :=
  match r with
  | "0"%char :: r' =>
      match drop_zeros r' with
      | "."%char :: r'' => Some r''
      | _ => None
      end
  | _ => None
  end.

(** [re.sub("[.][0]+$", "", s)]: [$] stands at the end of the text and
    also in front of a newline that ends it. *)
Definition sub_dot_zeros (s : string) : string :=
  let r := rev (list_ascii_of_string s) in
  match cut_dot_zeros r with
  | Some r' => string_of_list_ascii (rev r')
  | None =>
      match r with
      | "010"%char :: r1 =>
          match cut_dot_zeros r1 with
          | Some r' => string_of_list_ascii (rev r' ++ ["010"%char])%list
          | None => s
          end
      | _ => s
      end
  end.

Definition set_all_object (t : table) : table :=
  map (fun c =>
         match dtype_of c with
         | DObject => c
         | _ => mkcol (label c) DObject (values c)
         end) t.

Definition set_int_object (t : table) : table :=
  let t := set_all_object t in
  map (fun c =>
         match dtype_of c with
         | DObject =>
             mkcol (label c) DObject
               (map (fun v => Str (sub_dot_zeros (py_str v))) (values c))
         | _ => c
         end) t.

(** [for c in exclude: columns.remove(c)]. *)
Fixpoint remove_each (exclude columns : list string) : option (list string) :=
  match exclude with
  | [] => Some columns
  | c :: r =>
      match Py.list_remove c columns with
      | Some columns' => remove_each r columns'
      | None => None
      end
  end.

(** [df[col]] as a Series: there is one when exactly one column carries the
    label (several give a frame, which [pd.to_numeric] refuses). *)
Definition series (t : table) (col : string) : option column :=
  match filter (fun c => String.eqb (label c) col) t with
  | [c] => Some c
  | _ => None
  end.

(** [df[col] = s]. *)
Definition setitem (t : table) (col : string) (s : column) : table :=
  map (fun c =>
         if String.eqb (label c) col then mkcol col (dtype_of s) (values s)
         else c) t.

(** The body of the loop of [convert_num_dtypes]: [to_numeric] answers
    [None] where [pd.to_numeric] raises, and the bare [except] passes. *)
Definition convert_col (to_numeric : bool -> column -> option column)
    (as_int : bool) (t : table) (col : string) : table :=
  match series t col with
  | Some c =>
      match to_numeric as_int c with
      | Some s => setitem t col s
      | None => t
      end
  | None => t
  end.

Definition convert_num_dtypes (to_numeric : bool -> column -> option column)
    (exclude : list string) (as_int : bool) (t : table) : outcome :=
  match remove_each exclude (columns t) with
  | None => Raised ValueError t
  | Some columns => Returned (fold_left (convert_col to_numeric as_int) columns t)
  end.

Definition full_prep (miss_val log_skip_val : string) (blank : bool)
    (blank_val : string) (inpt_type : option string) (t : table) : table :=
  let t := capitalize_cols t in
  let t := fix_index t in
  if blank then
    let t := update_blanks blank_val [] t in
    update_missing miss_val log_skip_val [] [] true t
  else
    update_missing miss_val log_skip_val [] [] false t.

End PreppedData.

(** ** DataAccessor *)

Module DataAccessor.

Import PreppedData.

(** The positional arguments and the keywords [__init__] looks at. *)
Inductive arg : Type :=
| AStr (s : string)
| AFrame (t : table)
| AOther.

Record kwargs : Type := mkkw {
  kw_delimiter : option string;
  kw_keep_missing : option bool;
  kw_path : option string;
  kw_data : option table
}.

(** The two file readers, [pyreadstat.read_sas7bdat path user_missing] and
    [pd.read_csv path sep]. *)
Record readers : Type := mkreaders {
  read_sas7bdat : string -> bool -> table;
  read_csv : string -> string -> table
}.

(** [_read_sas_csv]; a path of neither kind leaves [self.data] unset, and
    reading it raises [AttributeError]. *)
Definition read_sas_csv (io : readers) (path delimiter : string)
    (keep_missing : bool) : option table :=
  if Py.contains ".sas7bdat" path then
    if keep_missing then Some (read_sas7bdat io path true)
    else Some (read_sas7bdat io path false)
  else if Py.contains ".csv" path then Some (read_csv io path delimiter)
  else None.

(** [df.map(str)]. *)
Definition map_str (t : table) : table :=
  map (fun c => mkcol (label c) DObject (map (fun v => Str (py_str v)) (values c))) t.

Inductive loaded : Type :=
| Loaded (data : table)
| Failed (e : exn).

Definition of_path (io : readers) (path delimiter : string)
    (keep_missing : bool) : loaded :=
  match read_sas_csv io path delimiter keep_missing with
  | Some t => Loaded t
  | None => Failed AttributeError
  end.

(** [__init__]: the table [self.data] is bound to. *)
Definition init (io : readers) (args : list arg) (kw : kwargs) : loaded :=
  let delimiter :=
    match kw_delimiter kw with
    | Some d => d
    | None => ","
    end in
  let keep_missing :=
    match kw_keep_missing kw with
    | Some k => k
    | None => true
    end in
  match args with
  | [AStr path] => of_path io path delimiter keep_missing
  | [AFrame t] => Loaded (map_str t)
  | _ =>
      match kw_path kw with
      | Some path => of_path io path delimiter keep_missing
      | None =>
          match kw_data kw with
          | Some t => Loaded (map_str t)
          | None => Failed AttributeError
          end
      end
  end.

End DataAccessor.

(** ** Vocabulary of the statements *)

Import Pandas PreppedData DataAccessor.

(** The cell of column [j] (counting from 0) in row [i], and the label of
    column [j]. *)
Definition cell_at (t : table) (j i : nat) : option cell :=
  match nth_error t j with
  | Some c => nth_error (values c) i
  | None => None
  end.

Definition label_at (t : table) (j : nat) : option string :=
  option_map label (nth_error t j).

(** A table has a name-bearing column. *)
Definition has_name_col (t : table) : bool :=
  existsb is_name_col (columns t).

(** Is [v] selected by one of the keys? *)
Definition marked (keys : list cell) (v : cell) : bool :=
  existsb (fun k => mask k v) keys.

(** White space, on ASCII: the blank and the characters 9 to 13. *)
Definition is_space (c : ascii) : bool :=
  let n := nat_of_ascii c in
  (n =? 32)%nat || ((9 <=? n)%nat && (n <=? 13)%nat).

Definition whitespace_only (s : string) : bool :=
  forallb is_space (list_ascii_of_string s).

(** The Blank class in the words of the specification, not of the code: the
    empty string, a text of white space only, [.], [nan], [NaN], an absent
    value, and the caller's extras. *)
Definition spec_blank_class (extras : list cell) (v : cell) : bool :=
  match v with
  | Str s =>
      whitespace_only s || String.eqb s "." || String.eqb s "nan"
      || String.eqb s "NaN" || marked extras v
  | Int _ => marked extras v
  | _ => true
  end.

(** A label starts with "unnamed" or with "UNNAMED". *)
Definition index_artifact (col : string) : bool :=
  Py.startswith "unnamed" col || Py.startswith "UNNAMED" col.

(** A label starts with "unnamed" whatever the case of its letters. *)
Definition unnamed_any_case (col : string) : bool :=
  Py.startswith "UNNAMED" (Py.upper col).

(** What [update_missing] makes of one cell: [named] says whether the table
    has a name-bearing column, [name_col] whether the cell's column is one. *)
Definition um_cell (miss_val log_skip_val : string)
    (miss_additions logskip_additions : list cell) (blank named name_col : bool)
    (v : cell) : cell :=
  let v := if name_col then v
           else replace_cell [(Str "M", ".M"); (Str "L", ".L")] v in
  let miss_lst :=
    if blank then [Str ".M"]
    else [Str ".M"; Str ""; Str " "; Str "nan"; Str "NaN"; NA; NaN; Str "."] in
  let v := replace_cell (dict_of (extend miss_lst miss_additions) miss_val) v in
  let log_skip := if named then [Str ".L"] else [Str ".L"; Str "L"] in
  replace_cell (dict_of (extend log_skip logskip_additions) log_skip_val) v.

(** No label occurs twice. *)
Fixpoint unique (l : list string) : bool :=
  match l with
  | [] => true
  | x :: r => negb (Py.mem x r) && unique r
  end.

(** Every column holds values of its dtype. *)
Definition well_typed (t : table) : bool :=
  forallb (fun c => forallb (holds (dtype_of c)) (values c)) t.

(** The labels [update_other_missing] leaves alone. *)
Definition left_alone (exclude_cols : str_or_list) (col : string) : bool :=
  is_name_col col ||
  Py.mem col (match exclude_cols with OneStr s => [s] | StrList l => l end).

(** What the first step of [update_other_missing] makes of one column. *)
Definition subst_col (add_miss_val : cell) (change_to_val : string)
    (exclude_cols : str_or_list) (c : column) : column :=
  if left_alone exclude_cols (label c) then c
  else update_col c (replace_col [(add_miss_val, change_to_val)] c).

(** What [convert_num_dtypes] makes of one column it tries. *)
Definition converted (to_numeric : bool -> column -> option column)
    (as_int : bool) (c : column) : column :=
  match to_numeric as_int c with
  | Some s => mkcol (label c) (dtype_of s) (values s)
  | None => c
  end.

(** [t'] has the columns of [t], each with as many rows, and the cell in
    row [i] of a column of [t'] is related by [g] to the cell in row [i] of
    that column of [t]. *)
Definition rows_in_place (g : cell -> cell -> Prop) (t t' : table) : Prop :=
  Forall2 (fun c c' => Forall2 g (values c) (values c')) t t'.

(** [t'] has as many columns as [t], each with as many rows, and the rows
    are where they were. *)
Definition keeps_rows (g : cell -> cell -> Prop) (t t' : table) : Prop :=
  length t' = length t /\ shape t' = shape t /\ rows_in_place g t t'.

(** A cast that reads decimal integer literals, and the numeric conversion
    built on it.  They stand for the cast and for [pd.to_numeric] in the
    examples; those of pandas accept more texts. *)
Fixpoint digits (s : string) (acc : Z) : option Z :=
  match s with
  | EmptyString => Some acc
  | String c r =>
      let n := nat_of_ascii c in
      if (48 <=? n)%nat && (n <=? 57)%nat
      then digits r (10 * acc + Z.of_nat (n - 48))
      else None
  end.

Definition int_literal (s : string) : option Z :=
  match s with
  | EmptyString => None
  | String "-" EmptyString => None
  | String "-" r => option_map Z.opp (digits r 0)
  | _ => digits s 0
  end.

Definition coerce_dec (d : dtype) (v : cell) : option cell :=
  match d, v with
  | DObject, _ => Some v
  | DInt64, Int _ => Some v
  | DInt64, Str s => option_map Int (int_literal s)
  | DInt64, _ => None
  end.

Definition to_numeric_dec (downcast_integer : bool) (c : column)
    : option column :=
  option_map (mkcol (label c) DInt64) (mapM (coerce_dec DInt64) (values c)).

(** The text of [n] zeros. *)
Definition zeros (n : nat) : string :=
  string_of_list_ascii (repeat "0"%char n).

(** ** Cells, keys and dicts *)

Lemma cell_eqb_eq (a b : cell) : cell_eqb a b = true <-> a = b.
Proof.
  destruct a, b; simpl; split; intro H; try discriminate; try reflexivity.
  - apply String.eqb_eq in H. now subst.
  - inversion H. apply String.eqb_refl.
  - apply Z.eqb_eq in H. now subst.
  - inversion H. apply Z.eqb_refl.
Qed.

Lemma mask_Str (s : string) (v : cell) :
  mask (Str s) v = true <-> v = Str s.
Proof.
  unfold mask. change (isna (Str s)) with false. cbv iota. split.
  - intro H. apply andb_true_iff in H. destruct H as [_ H].
    apply cell_eqb_eq in H. now subst.
  - intros ->. simpl. apply String.eqb_refl.
Qed.

Lemma mask_Str_Str (a b : string) : mask (Str a) (Str b) = String.eqb a b.
Proof. reflexivity. Qed.

Lemma fold_replace_dict_of (keys : list cell) (x : string) (v acc : cell) :
  fold_left (fun a p => if mask (fst p) v then Str (snd p) else a)
    (dict_of keys x) acc
  = if marked keys v then Str x else acc.
Proof.
  revert acc. induction keys as [|k keys IH]; intro acc; simpl.
  - reflexivity.
  - rewrite IH. destruct (mask k v); simpl.
    + now destruct (marked keys v).
    + reflexivity.
Qed.

Lemma replace_cell_dict_of (keys : list cell) (x : string) (v : cell) :
  replace_cell (dict_of keys x) v = if marked keys v then Str x else v.
Proof. apply fold_replace_dict_of. Qed.

Lemma fold_replace_cases (d : list (cell * string)) (v acc : cell) :
  let r := fold_left (fun a p => if mask (fst p) v then Str (snd p) else a) d acc in
  r = acc \/ exists x, r = Str x.
Proof.
  revert acc. induction d as [|p d IH]; intro acc; simpl.
  - now left.
  - destruct (mask (fst p) v).
    + right. destruct (IH (Str (snd p))) as [H|[x H]]; rewrite H; eauto.
    + apply IH.
Qed.

Lemma replace_cell_cases (d : list (cell * string)) (v : cell) :
  replace_cell d v = v \/ exists x, replace_cell d v = Str x.
Proof. apply fold_replace_cases. Qed.

Lemma replace_cell_isna (d : list (cell * string)) (v : cell) :
  isna (replace_cell d v) = true -> replace_cell d v = v.
Proof.
  destruct (replace_cell_cases d v) as [H|[x H]]; rewrite H; auto.
  discriminate.
Qed.

Lemma fit_idem (d : dtype) (vs : list cell) : fit (fit d vs) vs = fit d vs.
Proof.
  unfold fit. destruct (forallb (holds d) vs) eqn:E.
  - now rewrite E.
  - now destruct (forallb (holds DObject) vs).
Qed.

(** ** Positions *)

Lemma cell_at_map (f : column -> column) (g : string -> cell -> cell)
    (t : table) (j i : nat) :
  (forall c, values (f c) = map (g (label c)) (values c)) ->
  cell_at (map f t) j i =
  match label_at t j, cell_at t j i with
  | Some l, Some v => Some (g l v)
  | _, _ => None
  end.
Proof.
  intro Hf. unfold cell_at, label_at. rewrite nth_error_map.
  destruct (nth_error t j) as [c|]; simpl; [|reflexivity].
  rewrite Hf, nth_error_map. now destruct (nth_error (values c) i).
Qed.

Lemma label_at_In (t : table) (j : nat) (l : string) :
  label_at t j = Some l -> In l (columns t).
Proof.
  unfold label_at, columns. intro H.
  destruct (nth_error t j) as [c|] eqn:E; [|discriminate].
  inversion H; subst. apply in_map. eapply nth_error_In; eauto.
Qed.

(** ** update_blanks *)

Lemma marked_app (k1 k2 : list cell) (v : cell) :
  marked (k1 ++ k2) v = marked k1 v || marked k2 v.
Proof. apply existsb_app. Qed.

Lemma marked_extend (base additions : list cell) (v : cell) :
  marked (extend base additions) v = marked base v || marked additions v.
Proof.
  unfold extend. destruct additions as [|k ks].
  - simpl. now rewrite orb_false_r.
  - change (0 <? length (k :: ks))%nat with true. cbv iota. apply marked_app.
Qed.

Lemma marked_strings (keys : list string) (v : cell) :
  marked (map Str keys) v = true <-> exists s, v = Str s /\ In s keys.
Proof.
  unfold marked. rewrite existsb_exists. split.
  - intros [k [Hk Hm]]. apply in_map_iff in Hk. destruct Hk as [s [<- Hs]].
    apply mask_Str in Hm. eauto.
  - intros [s [-> Hs]]. exists (Str s). split.
    + now apply in_map.
    + now apply mask_Str.
Qed.

Lemma marked_blank_list (v : cell) :
  marked blank_list v = true <->
  isna v = true \/ In v [Str " "; Str ""; Str "."; Str "nan"; Str "NaN"].
Proof.
  change blank_list with (map Str [" "; ""; "."; "nan"; "NaN"] ++ [NA; NaN])%list.
  rewrite marked_app, orb_true_iff, marked_strings.
  change [Str " "; Str ""; Str "."; Str "nan"; Str "NaN"]
    with (map Str [" "; ""; "."; "nan"; "NaN"]).
  split.
  - intros [[s [-> Hs]]|H].
    + right. now apply in_map.
    + left. destruct v; simpl in H; try discriminate; reflexivity.
  - intros [H|H].
    + right. destruct v; try discriminate; reflexivity.
    + left. apply in_map_iff in H. destruct H as [s [<- Hs]]. eauto.
Qed.

Lemma values_replace_col (d : list (cell * string)) (c : column) :
  values (replace_col d c) = map (replace_cell d) (values c).
Proof. reflexivity. Qed.

Lemma label_replace_col (d : list (cell * string)) (c : column) :
  label (replace_col d c) = label c.
Proof. reflexivity. Qed.

Lemma cell_at_replace (d : list (cell * string)) (t : table) (j i : nat) :
  cell_at (replace d t) j i = option_map (replace_cell d) (cell_at t j i).
Proof.
  unfold replace.
  rewrite (cell_at_map _ (fun _ => replace_cell d)) by apply values_replace_col.
  unfold cell_at, label_at. destruct (nth_error t j) as [c|]; simpl; [|reflexivity].
  now destruct (nth_error (values c) i).
Qed.

Lemma columns_replace (d : list (cell * string)) (t : table) :
  columns (replace d t) = columns t.
Proof.
  unfold columns, replace. rewrite map_map. apply map_ext. reflexivity.
Qed.

Lemma replace_dict_of_idem (keys : list cell) (x : string) (t : table) :
  replace (dict_of keys x) (replace (dict_of keys x) t)
  = replace (dict_of keys x) t.
Proof.
  unfold replace. rewrite map_map. apply map_ext. intro c.
  unfold replace_col; simpl. rewrite map_map.
  assert (E : map (fun v => replace_cell (dict_of keys x)
                              (replace_cell (dict_of keys x) v)) (values c)
              = map (replace_cell (dict_of keys x)) (values c)).
  { apply map_ext. intro v. rewrite !replace_cell_dict_of.
    destruct (marked keys v) eqn:Ev.
    - now destruct (marked keys (Str x)).
    - now rewrite Ev. }
  rewrite E, fit_idem. reflexivity.
Qed.

(** C8. Applying [update_blanks] twice with the same blank value (and the
    same extra markers) gives the table that one application gives. *)
Theorem update_blanks_idempotent (blank_val : string) (extras : list cell)
    (t : table) :
  update_blanks blank_val extras (update_blanks blank_val extras t)
  = update_blanks blank_val extras t.
Proof. unfold update_blanks. apply replace_dict_of_idem. Qed.

(** C3, as stated, fails: a cell holding two spaces is in the Blank class of
    the specification (white space only), and [update_blanks] keeps it. *)
Lemma update_blanks_keeps_two_spaces :
  ~ (forall (blank_val : string) (extras : list cell) (t : table)
            (j i : nat) (m : cell),
        spec_blank_class extras m = true ->
        cell_at t j i = Some m ->
        cell_at (update_blanks blank_val extras t) j i = Some (Str blank_val)).
Proof.
  intro H.
  specialize (H "-97" [] [mkcol "Q1" DObject [Str "  "]] 0%nat 0%nat (Str "  ")
                eq_refl eq_refl).
  vm_compute in H. discriminate H.
Qed.

(** C3, amended.  The markers are the empty string, the text of one space,
    [.], [nan], [NaN], the absent values and the caller's extras.  Every
    cell that held a marker holds [blank_val] after [update_blanks], and a
    cell that holds a marker afterwards holds [blank_val] itself: no marker
    is left, unless [blank_val] is one. *)
Theorem update_blanks_coverage (blank_val : string) (extras : list cell)
    (t : table) :
  (forall j i v,
      cell_at t j i = Some v ->
      isna v = true \/
      In v [Str " "; Str ""; Str "."; Str "nan"; Str "NaN"] \/
      marked extras v = true ->
      cell_at (update_blanks blank_val extras t) j i = Some (Str blank_val))
  /\
  (forall j i v',
      cell_at (update_blanks blank_val extras t) j i = Some v' ->
      isna v' = true \/
      In v' [Str " "; Str ""; Str "."; Str "nan"; Str "NaN"] \/
      marked extras v' = true ->
      v' = Str blank_val).
Proof.
  assert (M : forall v,
             marked (extend blank_list extras) v = true <->
             isna v = true \/
             In v [Str " "; Str ""; Str "."; Str "nan"; Str "NaN"] \/
             marked extras v = true).
  { intro v. rewrite marked_extend, orb_true_iff, marked_blank_list. tauto. }
  unfold update_blanks. split.
  - intros j i v Hv Hm. apply M in Hm.
    rewrite cell_at_replace, Hv. simpl.
    now rewrite replace_cell_dict_of, Hm.
  - intros j i v' Hv' Hm. apply M in Hm.
    rewrite cell_at_replace in Hv'.
    destruct (cell_at t j i) as [v|]; [|discriminate]. simpl in Hv'.
    rewrite replace_cell_dict_of in Hv'.
    destruct (marked (extend blank_list extras) v) eqn:Ev.
    + congruence.
    + inversion Hv'; subst. congruence.
Qed.

Lemma update_blanks_coverage_witness :
  cell_at (update_blanks "-97" [Str "N/A"]
             [mkcol "Q1" DObject [Str ""; NaN; Str "N/A"; Str "7"]]) 0 2
  = Some (Str "-97").
Proof.
  apply (proj1 (update_blanks_coverage "-97" [Str "N/A"]
                  [mkcol "Q1" DObject [Str ""; NaN; Str "N/A"; Str "7"]])
           0%nat 2%nat (Str "N/A")).
  - reflexivity.
  - right. right. reflexivity.
Defined.

(** ** fix_index and capitalize_cols *)

Lemma filter_filter {A : Type} (p q : A -> bool) (l : list A) :
  filter q (filter p l) = filter (fun x => p x && q x) l.
Proof.
  induction l as [|x l IH]; simpl; [reflexivity|].
  destruct (p x); simpl; [destruct (q x)|]; now rewrite IH.
Qed.

Lemma filter_all {A : Type} (p : A -> bool) (l : list A) :
  (forall x, In x l -> p x = true) -> filter p l = l.
Proof.
  induction l as [|x l IH]; simpl; intro H; [reflexivity|].
  rewrite (H x) by now left. f_equal. apply IH. intros y Hy. apply H. now right.
Qed.

Lemma fix_index_filter (t : table) :
  fix_index t = filter (fun c => negb (index_artifact (label c))) t.
Proof.
  unfold fix_index. rewrite filter_filter. apply filter_ext. intro c.
  unfold index_artifact. now rewrite negb_orb.
Qed.

(** C6, as stated, fails: a column labelled [Unnamed: 0] starts with
    "unnamed" in mixed case, and [fix_index] keeps it. *)
Lemma fix_index_keeps_mixed_case :
  ~ (forall (t : table) (c : column),
        In c (fix_index t) -> unnamed_any_case (label c) = false).
Proof.
  intro H.
  specialize (H [mkcol "Unnamed: 0" DObject [Str "0"]]
                (mkcol "Unnamed: 0" DObject [Str "0"]) (or_introl eq_refl)).
  vm_compute in H. discriminate H.
Qed.

(** C6, amended.  [fix_index] removes exactly the columns whose label
    starts with "unnamed" or with "UNNAMED" and keeps the others as they
    are and in their order; it is idempotent, and it changes nothing in a
    table without such a column. *)
Theorem fix_index_removes_artifacts (t : table) :
  fix_index t = filter (fun c => negb (index_artifact (label c))) t
  /\ (forall c, In c (fix_index t) <->
                In c t /\ Py.startswith "unnamed" (label c) = false
                       /\ Py.startswith "UNNAMED" (label c) = false)
  /\ fix_index (fix_index t) = fix_index t
  /\ ((forall c, In c t -> index_artifact (label c) = false) -> fix_index t = t).
Proof.
  split; [apply fix_index_filter|]. split; [|split].
  - intro c. rewrite fix_index_filter, filter_In. unfold index_artifact.
    rewrite negb_true_iff, orb_false_iff. tauto.
  - rewrite !fix_index_filter, filter_filter. apply filter_ext. intro c.
    now destruct (index_artifact (label c)).
  - intro H. rewrite fix_index_filter. apply filter_all. intros c Hc.
    now rewrite (H c Hc).
Qed.

Lemma fix_index_removes_artifacts_witness :
  fix_index [mkcol "Q1" DObject [Str "1"]; mkcol "FNAME" DObject [Str "M"]]
  = [mkcol "Q1" DObject [Str "1"]; mkcol "FNAME" DObject [Str "M"]].
Proof.
  apply (proj2 (proj2 (proj2 (fix_index_removes_artifacts
           [mkcol "Q1" DObject [Str "1"]; mkcol "FNAME" DObject [Str "M"]])))).
  intros c [<-|[<-|[]]]; reflexivity.
Defined.

(** ** full_prep *)

(** C9. [full_prep] does not look at [inpt_type]: two calls that differ in
    that argument only return the same table. *)
Theorem full_prep_ignores_inpt_type (miss_val log_skip_val : string)
    (blank : bool) (blank_val : string) (inpt_type1 inpt_type2 : option string)
    (t : table) :
  full_prep miss_val log_skip_val blank blank_val inpt_type1 t
  = full_prep miss_val log_skip_val blank blank_val inpt_type2 t.
Proof. reflexivity. Qed.

(** The scenario of the specification: the index artifact goes, the "M" of
    the name column stays, the one of [Q1] becomes the missing value. *)
Example full_prep_scenario :
  full_prep ".M" ".L" false "-97" None
    [mkcol "FNAME" DObject [Str "M"; Str "John"];
     mkcol "Q1" DObject [Str "M"; Str ".L"];
     mkcol "Unnamed: 0" DObject [Str "0"; Str "1"]]
  = [mkcol "FNAME" DObject [Str "M"; Str "John"];
     mkcol "Q1" DObject [Str ".M"; Str ".L"]].
Proof. vm_compute. reflexivity. Qed.

(** ** Selecting columns by label and writing them back *)

Lemma mem_In (x : string) (l : list string) : Py.mem x l = true <-> In x l.
Proof.
  unfold Py.mem. rewrite existsb_exists. split.
  - intros [y [Hy E]]. apply String.eqb_eq in E. now subst.
  - intro H. exists x. split; [assumption|apply String.eqb_refl].
Qed.

Lemma unique_NoDup (l : list string) : unique l = true -> NoDup l.
Proof.
  induction l as [|x r IH]; simpl; intro H; constructor.
  - apply andb_true_iff in H. destruct H as [H _].
    apply negb_true_iff in H. intro Hin. apply mem_In in Hin. congruence.
  - apply IH. apply andb_true_iff in H. tauto.
Qed.

Lemma difference_In (a b : list string) (l : string) :
  In l (difference a b) <-> In l a /\ ~ In l b.
Proof.
  unfold difference.
  set (u := nodup string_dec (filter (fun l0 => negb (Py.mem l0 b)) a)).
  assert (P : Permutation u (StrSort.sort u)) by apply StrSort.Permuted_sort.
  split.
  - intro H. apply (Permutation_in _ (Permutation_sym P)) in H.
    unfold u in H. rewrite nodup_In, filter_In, negb_true_iff in H.
    destruct H as [Ha Hb]. split; [assumption|].
    intro Hin. apply mem_In in Hin. congruence.
  - intros [Ha Hb]. apply (Permutation_in _ P).
    unfold u. rewrite nodup_In, filter_In, negb_true_iff. split; [assumption|].
    destruct (Py.mem l b) eqn:E; [|reflexivity].
    apply mem_In in E. contradiction.
Qed.

Lemma find_the_one {A : Type} (p : A -> bool) (l : list A) (x : A) :
  In x l -> p x = true ->
  (forall y, In y l -> p y = true -> y = x) ->
  find p l = Some x.
Proof.
  induction l as [|a l IH]; simpl; intros Hin Hp Hu; [contradiction|].
  destruct (p a) eqn:Ea.
  - f_equal. apply Hu; auto.
  - destruct Hin as [->|Hin]; [congruence|].
    apply IH; auto.
Qed.

Lemma find_nothing {A : Type} (p : A -> bool) (l : list A) :
  (forall y, In y l -> p y = false) -> find p l = None.
Proof.
  induction l as [|a l IH]; simpl; intro H; [reflexivity|].
  rewrite (H a) by now left. apply IH. intros y Hy. apply H. now right.
Qed.

Lemma label_inj (t : table) (c c' : column) :
  NoDup (columns t) -> In c t -> In c' t -> label c = label c' -> c = c'.
Proof.
  unfold columns. induction t as [|a t IH]; simpl; intros Hn Hc Hc' E.
  - contradiction.
  - inversion Hn as [|? ? Hnotin Hn']; subst.
    destruct Hc as [->|Hc], Hc' as [->|Hc'].
    + reflexivity.
    + exfalso. apply Hnotin. rewrite E. now apply in_map.
    + exfalso. apply Hnotin. rewrite <- E. now apply in_map.
    + now apply IH.
Qed.

Lemma In_getitem (t : table) (labels : list string) (c : column) :
  In c (getitem t labels) <-> In c t /\ In (label c) labels.
Proof.
  unfold getitem. rewrite in_flat_map. split.
  - intros [l [Hl Hc]]. apply filter_In in Hc. destruct Hc as [Hc E].
    apply String.eqb_eq in E. subst. auto.
  - intros [Hc Hl]. exists (label c). split; [assumption|].
    apply filter_In. split; [assumption|apply String.eqb_refl].
Qed.

Lemma update_getitem (f : column -> column) (t : table) (labels : list string) :
  NoDup (columns t) ->
  (forall c, label (f c) = label c) ->
  update t (map f (getitem t labels))
  = map (fun c => if Py.mem (label c) labels then update_col c (f c) else c) t.
Proof.
  intros Hn Hf. unfold update. apply map_ext_in. intros c Hc.
  destruct (Py.mem (label c) labels) eqn:E.
  - apply mem_In in E.
    rewrite (find_the_one _ _ (f c)); [reflexivity| | |].
    + apply in_map. now apply In_getitem.
    + rewrite Hf. apply String.eqb_refl.
    + intros y Hy Ey. apply in_map_iff in Hy. destruct Hy as [c' [<- Hc']].
      apply In_getitem in Hc'. destruct Hc' as [Hc' _].
      rewrite Hf in Ey. apply String.eqb_eq in Ey.
      now rewrite (label_inj t c' c Hn Hc' Hc Ey).
  - rewrite find_nothing; [reflexivity|].
    intros y Hy. apply in_map_iff in Hy. destruct Hy as [c' [<- Hc']].
    apply In_getitem in Hc'. destruct Hc' as [_ Hl].
    rewrite Hf. destruct (String.eqb_spec (label c') (label c)) as [E'|]; [|reflexivity].
    rewrite E' in Hl. apply mem_In in Hl. congruence.
Qed.

Lemma where_notna_map (r : cell -> cell) (vs : list cell) :
  where_notna vs (map r vs)
  = map (fun v => if isna (r v) then v else r v) vs.
Proof.
  unfold where_notna. induction vs as [|v vs IH]; simpl; [reflexivity|].
  now rewrite IH.
Qed.

Lemma values_update_replace (d : list (cell * string)) (c : column) :
  values (update_col c (replace_col d c)) = map (replace_cell d) (values c).
Proof.
  unfold update_col. rewrite values_replace_col.
  destruct (forallb isna (map (replace_cell d) (values c))) eqn:E.
  - rewrite forallb_forall in E.
    rewrite <- (map_id (values c)) at 1. apply map_ext_in. intros v Hv.
    symmetry. apply replace_cell_isna. apply E. now apply in_map.
  - simpl. rewrite where_notna_map. apply map_ext. intro v.
    destruct (isna (replace_cell d v)) eqn:Ev; [|reflexivity].
    symmetry. now apply replace_cell_isna.
Qed.

Lemma label_update_col (c o : column) : label (update_col c o) = label c.
Proof. unfold update_col. now destruct (forallb isna (values o)). Qed.

(** The first step of [update_missing] and of [update_other_missing], column
    by column: the columns whose label is not in [out] are rewritten. *)
Lemma update_subset (d : list (cell * string)) (out : list string) (t : table) :
  NoDup (columns t) ->
  update t (replace d (getitem t (difference (columns t) out)))
  = map (fun c => if Py.mem (label c) out then c
                  else update_col c (replace_col d c)) t.
Proof.
  intro Hn. unfold replace.
  rewrite update_getitem by (auto using label_replace_col).
  apply map_ext_in. intros c Hc.
  assert (Hin : In (label c) (columns t)) by now apply in_map.
  destruct (Py.mem (label c) out) eqn:E.
  - destruct (Py.mem (label c) (difference (columns t) out)) eqn:E'; [|reflexivity].
    apply mem_In in E'. apply difference_In in E'. apply mem_In in E. tauto.
  - destruct (Py.mem (label c) (difference (columns t) out)) eqn:E'; [reflexivity|].
    assert (In (label c) (difference (columns t) out)).
    { apply difference_In. split; [assumption|]. intro H. apply mem_In in H. congruence. }
    apply mem_In in H. congruence.
Qed.

Lemma mem_filter (p : string -> bool) (l : list string) (x : string) :
  In x l -> Py.mem x (filter p l) = p x.
Proof.
  intro Hx. destruct (p x) eqn:E.
  - apply mem_In. apply filter_In. auto.
  - destruct (Py.mem x (filter p l)) eqn:E'; [|reflexivity].
    apply mem_In in E'. apply filter_In in E'. destruct E'. congruence.
Qed.

Lemma existsb_mem_filter (p : string -> bool) (l l' : list string) :
  (forall x, In x l -> In x l') ->
  existsb (fun col => Py.mem col l') (filter p l) = existsb p l.
Proof.
  induction l as [|x l IH]; simpl; intro H; [reflexivity|].
  destruct (p x) eqn:E; simpl.
  - assert (M : Py.mem x l' = true) by (apply mem_In; auto).
    now rewrite M.
  - apply IH. auto.
Qed.

(** ** update_missing *)

Section UpdateMissing.

Variables miss_val log_skip_val : string.
Variables miss_additions logskip_additions : list cell.
Variable blank : bool.

Lemma columns_update_subset (d : list (cell * string)) (out : list string)
    (t : table) :
  columns (map (fun c => if Py.mem (label c) out then c
                         else update_col c (replace_col d c)) t)
  = columns t.
Proof.
  unfold columns. rewrite map_map. apply map_ext. intro c.
  destruct (Py.mem (label c) out); [reflexivity|].
  now rewrite label_update_col.
Qed.

Lemma cell_at_update_subset (d : list (cell * string)) (out : list string)
    (t : table) (j i : nat) :
  cell_at (map (fun c => if Py.mem (label c) out then c
                         else update_col c (replace_col d c)) t) j i
  = match label_at t j, cell_at t j i with
    | Some l, Some v => Some (if Py.mem l out then v else replace_cell d v)
    | _, _ => None
    end.
Proof.
  apply (cell_at_map _ (fun l v => if Py.mem l out then v else replace_cell d v)).
  intro c. destruct (Py.mem (label c) out).
  - now rewrite map_id.
  - apply values_update_replace.
Qed.

(** [update_missing], cell by cell. *)
Lemma cell_at_update_missing (t : table) (j i : nat) :
  NoDup (columns t) ->
  cell_at (update_missing miss_val log_skip_val miss_additions
             logskip_additions blank t) j i
  = match label_at t j, cell_at t j i with
    | Some l, Some v =>
        Some (um_cell miss_val log_skip_val miss_additions logskip_additions
                blank (has_name_col t) (is_name_col l) v)
    | _, _ => None
    end.
Proof.
  intro Hn. unfold update_missing. cbv zeta.
  rewrite update_subset by assumption.
  rewrite columns_replace, columns_update_subset.
  rewrite existsb_mem_filter by auto.
  fold (has_name_col t).
  assert (E : forall named : bool,
    cell_at
      (replace
         (dict_of (extend (if named then [Str ".L"] else [Str ".L"; Str "L"])
                     logskip_additions) log_skip_val)
         (replace
            (dict_of
               (extend
                  (if blank then [Str ".M"]
                   else [Str ".M"; Str ""; Str " "; Str "nan"; Str "NaN"; NA;
                         NaN; Str "."]) miss_additions) miss_val)
            (map (fun c => if Py.mem (label c) (filter is_name_col (columns t))
                           then c
                           else update_col c
                                  (replace_col [(Str "M", ".M"); (Str "L", ".L")] c))
               t))) j i
    = match label_at t j, cell_at t j i with
      | Some l, Some v =>
          Some (um_cell miss_val log_skip_val miss_additions logskip_additions
                  blank named (is_name_col l) v)
      | _, _ => None
      end).
  { intro named. rewrite !cell_at_replace, cell_at_update_subset.
    destruct (label_at t j) as [l|] eqn:El; [|reflexivity].
    destruct (cell_at t j i) as [v|]; [|reflexivity].
    simpl. rewrite (mem_filter _ _ _ (label_at_In _ _ _ El)).
    unfold um_cell. now destruct named. }
  destruct (has_name_col t); [exact (E true)|exact (E false)].
Qed.

End UpdateMissing.

Lemma mask_to_Str (k : cell) (s : string) :
  mask k (Str s) = true <-> k = Str s.
Proof.
  destruct k; unfold mask; simpl; split; intro H; try discriminate.
  - apply String.eqb_eq in H. now subst.
  - inversion H. apply String.eqb_refl.
Qed.

Lemma marked_Str_In (keys : list cell) (s : string) :
  marked keys (Str s) = true <-> In (Str s) keys.
Proof.
  unfold marked. rewrite existsb_exists. split.
  - intros [k [Hk Hm]]. apply mask_to_Str in Hm. now subst.
  - intro H. exists (Str s). split; [assumption|]. now apply mask_to_Str.
Qed.

Lemma not_marked (keys : list cell) (s : string) :
  ~ In (Str s) keys -> marked keys (Str s) = false.
Proof.
  intro H. destruct (marked keys (Str s)) eqn:E; [|reflexivity].
  apply marked_Str_In in E. contradiction.
Qed.

Lemma has_name_col_at (t : table) (j : nat) (col : string) :
  label_at t j = Some col -> is_name_col col = true -> has_name_col t = true.
Proof.
  intros Hl Hc. unfold has_name_col. apply existsb_exists.
  exists col. split; [now apply (label_at_In t j)|assumption].
Qed.

Lemma replace_dict_Str (keys additions : list cell) (x s : string) :
  replace_cell (dict_of (extend keys additions) x) (Str s)
  = if marked keys (Str s) || marked additions (Str s) then Str x else Str s.
Proof. now rewrite replace_cell_dict_of, marked_extend. Qed.

Lemma miss_lst_Str (blank : bool) (s : string) :
  marked (if blank then [Str ".M"]
          else [Str ".M"; Str ""; Str " "; Str "nan"; Str "NaN"; NA; NaN;
                Str "."]) (Str s)
  = if blank then String.eqb ".M" s
    else existsb (fun k => String.eqb k s) [".M"; ""; " "; "nan"; "NaN"; "."].
Proof.
  destruct blank; unfold marked; simpl; rewrite !mask_Str_Str.
  - now rewrite orb_false_r.
  - unfold mask; simpl. reflexivity.
Qed.

(** A bare "M" or "L" in a name-bearing column. *)
Lemma name_col_keeps_bare (miss_val log_skip_val : string)
    (miss_additions logskip_additions : list cell) (blank : bool)
    (t : table) (j i : nat) (col s : string) :
  NoDup (columns t) ->
  label_at t j = Some col ->
  is_name_col col = true ->
  s = "M" \/ s = "L" ->
  cell_at t j i = Some (Str s) ->
  ~ In (Str s) miss_additions ->
  ~ In (Str s) logskip_additions ->
  cell_at (update_missing miss_val log_skip_val miss_additions
             logskip_additions blank t) j i = Some (Str s).
Proof.
  intros Hn Hl Hc Hs Hv Hm Hk.
  pose proof (has_name_col_at t j col Hl Hc) as Hnamed.
  rewrite cell_at_update_missing, Hl, Hv, Hnamed, Hc by assumption.
  f_equal. unfold um_cell. cbv zeta iota.
  rewrite (replace_dict_Str _ miss_additions miss_val s).
  rewrite (not_marked miss_additions s Hm), orb_false_r, miss_lst_Str.
  assert (E1 : (if blank then String.eqb ".M" s
                else existsb (fun k => String.eqb k s)
                       [".M"; ""; " "; "nan"; "NaN"; "."]) = false)
    by (destruct Hs as [-> | ->], blank; reflexivity).
  rewrite E1, replace_dict_Str.
  rewrite (not_marked logskip_additions s Hk), orb_false_r.
  assert (E2 : marked [Str ".L"] (Str s) = false)
    by (destruct Hs as [-> | ->]; reflexivity).
  now rewrite E2.
Qed.

(** C2, as stated, fails: a call may name the bare letter "M" among its
    extra missing markers, and then the "M" of a name-bearing column is
    replaced like any other. *)
Lemma update_missing_extra_marker_in_name_col :
  ~ (forall (miss_val log_skip_val : string)
            (miss_additions logskip_additions : list cell) (blank : bool)
            (t : table) (j i : nat) (col : string),
        label_at t j = Some col -> is_name_col col = true ->
        cell_at t j i = Some (Str "M") ->
        cell_at (update_missing miss_val log_skip_val miss_additions
                   logskip_additions blank t) j i = Some (Str "M")).
Proof.
  intro H.
  specialize (H "-99" "-98" [Str "M"] [] false
                [mkcol "FNAME" DObject [Str "M"]] 0%nat 0%nat "FNAME"
                eq_refl eq_refl eq_refl).
  vm_compute in H. discriminate H.
Qed.

(** C2, amended.  In a name-bearing column of a table with unique labels,
    [update_missing] keeps a bare "M" or "L" that the call does not name
    among its extra markers; it replaces [.M] by [miss_val] when [miss_val]
    is not itself a logical-skip marker of the call, and [.L] by
    [log_skip_val] when [.L] is not among the extra missing markers. *)
Theorem update_missing_name_columns (miss_val log_skip_val : string)
    (miss_additions logskip_additions : list cell) (blank : bool)
    (t : table) (j i : nat) (col : string) :
  NoDup (columns t) ->
  label_at t j = Some col ->
  is_name_col col = true ->
  let t' := update_missing miss_val log_skip_val miss_additions
              logskip_additions blank t in
  (forall s, s = "M" \/ s = "L" ->
             cell_at t j i = Some (Str s) ->
             ~ In (Str s) miss_additions ->
             ~ In (Str s) logskip_additions ->
             cell_at t' j i = Some (Str s))
  /\ (cell_at t j i = Some (Str ".M") ->
      miss_val <> ".L" ->
      ~ In (Str miss_val) logskip_additions ->
      cell_at t' j i = Some (Str miss_val))
  /\ (cell_at t j i = Some (Str ".L") ->
      ~ In (Str ".L") miss_additions ->
      cell_at t' j i = Some (Str log_skip_val)).
Proof.
  intros Hn Hl Hc t'. unfold t'.
  pose proof (has_name_col_at t j col Hl Hc) as Hnamed.
  split; [|split].
  - intros s Hs Hv Hm Hk. now apply (name_col_keeps_bare _ _ _ _ _ _ _ _ col).
  - intros Hv Hne Hk.
    rewrite cell_at_update_missing, Hl, Hv, Hnamed, Hc by assumption.
    f_equal. unfold um_cell. cbv zeta iota.
    rewrite (replace_dict_Str _ miss_additions miss_val ".M"), miss_lst_Str.
    assert (E1 : (if blank then String.eqb ".M" ".M"
                  else existsb (fun k => String.eqb k ".M")
                         [".M"; ""; " "; "nan"; "NaN"; "."]) = true)
      by (destruct blank; reflexivity).
    rewrite E1. simpl orb. cbv iota. rewrite replace_dict_Str.
    rewrite (not_marked logskip_additions miss_val Hk), orb_false_r.
    assert (E2 : marked [Str ".L"] (Str miss_val) = false).
    { apply not_marked. intros [E|[]]. inversion E. congruence. }
    now rewrite E2.
  - intros Hv Hm.
    rewrite cell_at_update_missing, Hl, Hv, Hnamed, Hc by assumption.
    f_equal. unfold um_cell. cbv zeta iota.
    rewrite (replace_dict_Str _ miss_additions miss_val ".L"), miss_lst_Str.
    rewrite (not_marked miss_additions ".L" Hm), orb_false_r.
    assert (E1 : (if blank then String.eqb ".M" ".L"
                  else existsb (fun k => String.eqb k ".L")
                         [".M"; ""; " "; "nan"; "NaN"; "."]) = false)
      by (destruct blank; reflexivity).
    rewrite E1, replace_dict_Str. reflexivity.
Qed.

Lemma update_missing_name_columns_witness :
  cell_at (update_missing "-99" "-98" [Str "N"] [] false
             [mkcol "FNAME" DObject [Str "M"; Str ".M"; Str ".L"];
              mkcol "Q1" DObject [Str "M"; Str "N"; Str "L"]]) 0 1
  = Some (Str "-99").
Proof.
  apply (proj1 (proj2 (update_missing_name_columns "-99" "-98" [Str "N"] []
                         false
                         [mkcol "FNAME" DObject [Str "M"; Str ".M"; Str ".L"];
                          mkcol "Q1" DObject [Str "M"; Str "N"; Str "L"]]
                         0%nat 1%nat "FNAME" (unique_NoDup ["FNAME"; "Q1"] eq_refl)
                         eq_refl eq_refl))).
  - reflexivity.
  - discriminate.
  - simpl. tauto.
Defined.

(** C1, as stated, fails: with a name-bearing column in the table, a bare
    "L" of another column is first rewritten to [.L] and then replaced by
    the logical-skip value. *)
Lemma update_missing_rewrites_bare_L :
  ~ (forall (miss_val log_skip_val : string)
            (miss_additions logskip_additions : list cell) (blank : bool)
            (t : table) (j i : nat),
        has_name_col t = true ->
        cell_at t j i = Some (Str "L") ->
        cell_at (update_missing miss_val log_skip_val miss_additions
                   logskip_additions blank t) j i = Some (Str "L")).
Proof.
  intro H.
  specialize (H ".M" ".L" [] [] false
                [mkcol "FNAME" DObject [Str "M"]; mkcol "Q1" DObject [Str "L"]]
                1%nat 0%nat eq_refl eq_refl).
  vm_compute in H. discriminate H.
Qed.

(** C1, amended.  In a table with unique labels and at least one
    name-bearing column, a cell holding the bare letter "L" is left as it is
    by [update_missing] when its column is name-bearing (and the call does
    not name "L" among its extra markers); in a column that is not
    name-bearing it ends as [log_skip_val] (when the call does not name
    [.L] among its extra missing markers). *)
Theorem update_missing_bare_L (miss_val log_skip_val : string)
    (miss_additions logskip_additions : list cell) (blank : bool)
    (t : table) (j i : nat) (col : string) :
  NoDup (columns t) ->
  has_name_col t = true ->
  label_at t j = Some col ->
  cell_at t j i = Some (Str "L") ->
  let t' := update_missing miss_val log_skip_val miss_additions
              logskip_additions blank t in
  (is_name_col col = true ->
   ~ In (Str "L") miss_additions ->
   ~ In (Str "L") logskip_additions ->
   cell_at t' j i = Some (Str "L"))
  /\ (is_name_col col = false ->
      ~ In (Str ".L") miss_additions ->
      cell_at t' j i = Some (Str log_skip_val)).
Proof.
  intros Hn Hnamed Hl Hv t'. unfold t'. split.
  - intros Hc Hm Hk.
    apply (name_col_keeps_bare _ _ _ _ _ _ _ _ col); auto.
  - intros Hc Hm.
    rewrite cell_at_update_missing, Hl, Hv, Hnamed, Hc by assumption.
    f_equal. unfold um_cell. cbv zeta iota.
    change (replace_cell [(Str "M", ".M"); (Str "L", ".L")] (Str "L"))
      with (Str ".L").
    rewrite (replace_dict_Str _ miss_additions miss_val ".L"), miss_lst_Str.
    rewrite (not_marked miss_additions ".L" Hm), orb_false_r.
    assert (E1 : (if blank then String.eqb ".M" ".L"
                  else existsb (fun k => String.eqb k ".L")
                         [".M"; ""; " "; "nan"; "NaN"; "."]) = false)
      by (destruct blank; reflexivity).
    rewrite E1, replace_dict_Str. reflexivity.
Qed.

Lemma update_missing_bare_L_witness :
  cell_at (update_missing "-99" "-98" [] [] false
             [mkcol "FNAME" DObject [Str "L"; Str "M"];
              mkcol "Q1" DObject [Str "L"; Str "3"]]) 1 0
  = Some (Str "-98").
Proof.
  apply (proj2 (update_missing_bare_L "-99" "-98" [] [] false
                  [mkcol "FNAME" DObject [Str "L"; Str "M"];
                   mkcol "Q1" DObject [Str "L"; Str "3"]]
                  1%nat 0%nat "Q1" (unique_NoDup ["FNAME"; "Q1"] eq_refl)
                  eq_refl eq_refl eq_refl)).
  - reflexivity.
  - simpl. tauto.
Defined.

(** ** DataAccessor *)

Lemma cell_at_map_str (t : table) (j i : nat) :
  cell_at (map_str t) j i
  = option_map (fun v => Str (py_str v)) (cell_at t j i).
Proof.
  unfold map_str.
  rewrite (cell_at_map _ (fun _ v => Str (py_str v))) by reflexivity.
  unfold cell_at, label_at. destruct (nth_error t j) as [c|]; simpl; [|reflexivity].
  now destruct (nth_error (values c) i).
Qed.

(** C10, as stated, fails: an absent cell that is [None] is turned into the
    text "None", not into "nan". *)
Lemma init_stringifies_None :
  ~ (forall (io : readers) (kw : kwargs) (t : table) (j i : nat) (v : cell),
        isna v = true ->
        cell_at t j i = Some v ->
        exists t', init io [AFrame t] kw = Loaded t'
                   /\ cell_at t' j i = Some (Str "nan")).
Proof.
  intro H.
  destruct (H (mkreaders (fun _ _ => []) (fun _ _ => []))
              (mkkw None None None None)
              [mkcol "Q1" DObject [Str "x"; PyNone]] 0%nat 1%nat PyNone
              eq_refl eq_refl) as [t' [E Hc]].
  inversion E; subst. vm_compute in Hc. discriminate Hc.
Qed.

(** C10, amended.  Built from a table in memory, handed over as the one
    positional argument or under the keyword [data], the loader holds the
    table of the texts [str] gives for the cells.  A cell that is [np.nan] becomes
    "nan", which is a Blank marker and, when blanks are not kept apart, a
    Missing marker.  A cell that is [None] becomes "None" and one that is
    [pd.NA] becomes "<NA>"; neither text is a marker. *)
Theorem init_from_frame (io : readers) (kw : kwargs) (t : table) :
  init io [AFrame t] kw = Loaded (map_str t)
  /\ (forall delimiter keep_missing,
         init io [] (mkkw delimiter keep_missing None (Some t))
         = Loaded (map_str t))
  /\ (forall j i,
         cell_at (map_str t) j i
         = option_map (fun v => Str (py_str v)) (cell_at t j i))
  /\ (py_str NaN = "nan"
      /\ marked blank_list (Str "nan") = true
      /\ marked [Str ".M"; Str ""; Str " "; Str "nan"; Str "NaN"; NA; NaN;
                 Str "."] (Str "nan") = true)
  /\ (py_str PyNone = "None" /\ py_str NA = "<NA>"
      /\ forall s, s = "None" \/ s = "<NA>" ->
           marked blank_list (Str s) = false
           /\ marked [Str ".M"; Str ""; Str " "; Str "nan"; Str "NaN"; NA; NaN;
                      Str "."] (Str s) = false).
Proof.
  split; [reflexivity|]. split; [reflexivity|].
  split; [intros; apply cell_at_map_str|].
  split; [repeat split|]. split; [reflexivity|]. split; [reflexivity|].
  intros s [-> | ->]; split; reflexivity.
Qed.

(** ** Rows and columns *)

Lemma rows_in_place_keeps (g : cell -> cell -> Prop) (t t' : table) :
  rows_in_place g t t' -> keeps_rows g t t'.
Proof.
  intro H. split; [|split; [|assumption]].
  - symmetry. eapply Forall2_length; eauto.
  - unfold shape. induction H as [|c c' l l' Hc _ IH]; simpl; [reflexivity|].
    f_equal; [|assumption]. symmetry. eapply Forall2_length; eauto.
Qed.

Lemma Forall2_map_fun (g : cell -> cell -> Prop) (h : cell -> cell)
    (vs : list cell) :
  (forall v, In v vs -> g v (h v)) -> Forall2 g vs (map h vs).
Proof.
  induction vs as [|v vs IH]; simpl; intro H; constructor.
  - apply H. now left.
  - apply IH. intros w Hw. apply H. now right.
Qed.

Lemma Forall2_eq_refl (vs : list cell) : Forall2 eq vs vs.
Proof. induction vs; constructor; auto. Qed.

Lemma Forall2_after_map (g : cell -> cell -> Prop) (h : cell -> cell)
    (vs vs' : list cell) :
  Forall2 g (map h vs) vs' -> Forall2 (fun v v' => g (h v) v') vs vs'.
Proof.
  revert vs'. induction vs as [|v vs IH]; simpl; intros vs' H;
    inversion H; subst; constructor; auto.
Qed.

Lemma Forall2_weaken (g g' : cell -> cell -> Prop) (vs vs' : list cell) :
  (forall v v', g v v' -> g' v v') -> Forall2 g vs vs' -> Forall2 g' vs vs'.
Proof. intros Hg H. induction H; constructor; auto. Qed.

Lemma rows_in_place_map (g : cell -> cell -> Prop) (F : column -> column)
    (t : table) :
  (forall c, In c t -> Forall2 g (values c) (values (F c))) ->
  rows_in_place g t (map F t).
Proof.
  unfold rows_in_place. induction t as [|c t IH]; simpl; intro H; constructor.
  - apply H. now left.
  - apply IH. intros c' Hc'. apply H. now right.
Qed.

(** ** update_other_missing *)

Lemma mapM_Forall2 {A B : Type} (f : A -> option B) (l : list A) (l' : list B) :
  mapM f l = Some l' -> Forall2 (fun x y => f x = Some y) l l'.
Proof.
  revert l'. induction l as [|x l IH]; simpl; intros l' H.
  - inversion H. constructor.
  - destruct (f x) as [y|] eqn:Ex; [|discriminate].
    destruct (mapM f l) as [ys|]; [|discriminate].
    inversion H; subst. constructor; auto.
Qed.

Lemma mapM_None {A B : Type} (f : A -> option B) (l : list A) :
  mapM f l = None <-> exists x, In x l /\ f x = None.
Proof.
  induction l as [|x l IH]; simpl.
  - split; [discriminate|]. intros [x [[] _]].
  - destruct (f x) as [y|] eqn:Ex.
    + destruct (mapM f l) as [ys|].
      * split; [discriminate|]. intros [z [[<-|Hz] Ez]]; [congruence|].
        assert (N : Some ys = None) by (apply IH; eauto).
        discriminate N.
      * split; [|reflexivity]. intros _.
        destruct (proj1 IH eq_refl) as [z [Hz Ez]]. eauto.
    + split; [|reflexivity]. intros _. eauto.
Qed.

Lemma mapM_map {A B C : Type} (f : B -> option C) (g : A -> B) (l : list A) :
  mapM f (map g l) = mapM (fun x => f (g x)) l.
Proof.
  induction l as [|x l IH]; simpl; [reflexivity|]. now rewrite IH.
Qed.

Lemma mapM_ext_in {A B : Type} (f g : A -> option B) (l : list A) :
  (forall x, In x l -> f x = g x) -> mapM f l = mapM g l.
Proof.
  induction l as [|x l IH]; simpl; intro H; [reflexivity|].
  rewrite (H x) by now left. rewrite IH; [reflexivity|].
  intros y Hy. apply H. now right.
Qed.

Lemma dict_get_absent (k : string) (t : table) :
  ~ In k (columns t) -> dict_get k (to_dict t) = None.
Proof.
  induction t as [|a t IH]; simpl; intro H; [reflexivity|].
  rewrite IH by tauto.
  destruct (String.eqb_spec k (label a)); [|reflexivity].
  exfalso. apply H. left. congruence.
Qed.

Lemma dict_get_to_dict (t : table) (c : column) :
  NoDup (columns t) -> In c t ->
  dict_get (label c) (to_dict t) = Some (dtype_of c).
Proof.
  induction t as [|a t IH]; simpl; intros Hn Hc; [contradiction|].
  inversion Hn as [|? ? Hnotin Hn']; subst.
  destruct Hc as [->|Hc].
  - rewrite dict_get_absent by assumption. now rewrite String.eqb_refl.
  - now rewrite IH.
Qed.

Lemma mem_app (x : string) (a b : list string) :
  Py.mem x (a ++ b) = Py.mem x a || Py.mem x b.
Proof. apply existsb_app. Qed.

Lemma replace_cell_one (k : cell) (x : string) (v : cell) :
  replace_cell [(k, x)] v = if mask k v then Str x else v.
Proof. reflexivity. Qed.

Lemma dtype_eqb_eq (a b : dtype) : dtype_eqb a b = true <-> a = b.
Proof. destruct a, b; simpl; split; congruence. Qed.

Lemma well_typed_In (t : table) (c : column) (v : cell) :
  well_typed t = true -> In c t -> In v (values c) ->
  holds (dtype_of c) v = true.
Proof.
  unfold well_typed. rewrite forallb_forall. intros H Hc Hv.
  specialize (H c Hc). rewrite forallb_forall in H. auto.
Qed.

Section OtherMissing.

Variable coerce : dtype -> cell -> option cell.
Variable add_miss_val : cell.
Variable change_to_val : string.
Variable exclude_cols : str_or_list.

(** A value that is of the dtype already is cast to itself. *)
Hypothesis coerce_holds :
  forall d v, holds d v = true -> coerce d v = Some v.

Local Abbreviation subst := (subst_col add_miss_val change_to_val exclude_cols).

Lemma label_subst (c : column) : label (subst c) = label c.
Proof.
  unfold subst_col. destruct (left_alone exclude_cols (label c)); [reflexivity|].
  apply label_update_col.
Qed.

Lemma values_subst (c : column) :
  values (subst c)
  = if left_alone exclude_cols (label c) then values c
    else map (fun v => if mask add_miss_val v then Str change_to_val else v)
           (values c).
Proof.
  unfold subst_col. destruct (left_alone exclude_cols (label c)); [reflexivity|].
  apply values_update_replace.
Qed.

Lemma update_other_missing_unfold (t : table) :
  NoDup (columns t) ->
  update_other_missing coerce add_miss_val change_to_val exclude_cols t
  = match mapM (fun c => astype_col coerce (dtype_of c) (subst c)) t with
    | Some t' => Returned t'
    | None => Raised ValueError (map subst t)
    end.
Proof.
  intro Hn. unfold update_other_missing. cbv zeta.
  rewrite update_subset by assumption.
  set (ex := match exclude_cols with OneStr s => [s] | StrList l => l end).
  assert (E : map (fun c =>
                     if Py.mem (label c)
                          (if (0 <? length ex)%nat
                           then (filter is_name_col (columns t) ++ ex)%list
                           else filter is_name_col (columns t))
                     then c
                     else update_col c
                            (replace_col [(add_miss_val, change_to_val)] c)) t
              = map subst t).
  { apply map_ext_in. intros c Hc. unfold subst_col, left_alone. fold ex.
    assert (M : Py.mem (label c)
                  (if (0 <? length ex)%nat
                   then (filter is_name_col (columns t) ++ ex)%list
                   else filter is_name_col (columns t))
                = is_name_col (label c) || Py.mem (label c) ex).
    { assert (Hin : In (label c) (columns t)) by now apply in_map.
      destruct ex as [|e ex'].
      - simpl. rewrite mem_filter by assumption. now rewrite orb_false_r.
      - change (0 <? length (e :: ex'))%nat with true. cbv iota.
        rewrite mem_app, mem_filter by assumption. reflexivity. }
    now rewrite M. }
  rewrite E. unfold astype. rewrite mapM_map.
  rewrite (mapM_ext_in _ (fun c => astype_col coerce (dtype_of c) (subst c))).
  - reflexivity.
  - intros c Hc. rewrite label_subst, dict_get_to_dict by assumption.
    reflexivity.
Qed.

Lemma astype_col_dtype (d : dtype) (c c' : column) :
  astype_col coerce d c = Some c' -> dtype_of c' = d /\ label c' = label c.
Proof.
  unfold astype_col. destruct (dtype_eqb (dtype_of c) d) eqn:E.
  - intro H. inversion H; subst. apply dtype_eqb_eq in E. auto.
  - destruct (mapM (coerce d) (values c)); simpl; intro H; inversion H. auto.
Qed.

(** When the cast of a column after the substitution fails. *)
Lemma astype_subst_fails (t : table) (c : column) :
  well_typed t = true -> In c t ->
  (astype_col coerce (dtype_of c) (subst c) = None <->
   left_alone exclude_cols (label c) = false
   /\ (exists v, In v (values c) /\ mask add_miss_val v = true)
   /\ coerce (dtype_of c) (Str change_to_val) = None).
Proof.
  intros Hwt Hc. unfold astype_col. split.
  - destruct (dtype_eqb (dtype_of (subst c)) (dtype_of c)) eqn:E; [discriminate|].
    intro H.
    destruct (mapM (coerce (dtype_of c)) (values (subst c))) eqn:Em;
      [discriminate|].
    apply mapM_None in Em. destruct Em as [w [Hw Ew]].
    rewrite values_subst in Hw.
    destruct (left_alone exclude_cols (label c)) eqn:El.
    + rewrite coerce_holds in Ew; [discriminate|].
      now apply (well_typed_In t c w).
    + split; [reflexivity|]. apply in_map_iff in Hw.
      destruct Hw as [v [Ev Hv]].
      destruct (mask add_miss_val v) eqn:Emask.
      * subst w. split; [eauto|assumption].
      * subst w. rewrite coerce_holds in Ew; [discriminate|].
        now apply (well_typed_In t c v).
  - intros [El [[v [Hv Hm]] Hco]].
    assert (Hh : holds (dtype_of c) (Str change_to_val) = false).
    { destruct (holds (dtype_of c) (Str change_to_val)) eqn:Eh; [|reflexivity].
      rewrite coerce_holds in Hco by assumption. discriminate. }
    assert (Hin : In (Str change_to_val) (values (subst c))).
    { rewrite values_subst, El. apply in_map_iff. exists v.
      rewrite Hm. auto. }
    assert (Ed : dtype_of (subst c) = DObject).
    { unfold subst_col. rewrite El. unfold update_col.
      destruct (forallb isna
                  (values (replace_col [(add_miss_val, change_to_val)] c))) eqn:En.
      - rewrite forallb_forall in En.
        rewrite values_subst, El in Hin.
        specialize (En _ Hin). discriminate En.
      - simpl. unfold fit.
        match goal with
        | |- (if ?b then _ else _) = _ => destruct b eqn:Ef; [|reflexivity]
        end.
        rewrite forallb_forall in Ef.
        assert (Hin' : In (Str change_to_val)
                         (where_notna (values c)
                            (map (replace_cell [(add_miss_val, change_to_val)])
                               (values c)))).
        { pose proof (values_update_replace
                        [(add_miss_val, change_to_val)] c) as Hv'.
          unfold update_col in Hv'. rewrite En in Hv'.
          change (where_notna (values c)
                    (map (replace_cell [(add_miss_val, change_to_val)])
                       (values c))
                  = map (replace_cell [(add_miss_val, change_to_val)])
                      (values c)) in Hv'.
          rewrite Hv'. apply in_map_iff. exists v.
          rewrite replace_cell_one, Hm. auto. }
        specialize (Ef _ Hin'). congruence. }
    rewrite Ed.
    destruct (dtype_of c) eqn:Edc; [discriminate Hh|]. simpl.
    assert (Em : mapM (coerce DInt64) (values (subst c)) = None).
    { apply mapM_None. eauto. }
    now rewrite Em.
Qed.

Lemma values_subst_map (c : column) :
  values (subst c)
  = map (fun v => if left_alone exclude_cols (label c) then v
                  else if mask add_miss_val v then Str change_to_val else v)
      (values c).
Proof.
  rewrite values_subst. destruct (left_alone exclude_cols (label c));
    [now rewrite map_id|reflexivity].
Qed.

Lemma update_other_missing_rows (t : table) :
  NoDup (columns t) ->
  Forall2
    (fun c c' =>
       Forall2
         (fun v v' =>
            exists w, (w = v \/ w = Str change_to_val)
                      /\ (v' = w \/ exists d, coerce d w = Some v'))
         (values c) (values c'))
    t (data_of (update_other_missing coerce add_miss_val change_to_val
                  exclude_cols t)).
Proof.
  intro Hn. rewrite update_other_missing_unfold by assumption.
  assert (Hsub : forall c v,
            let w := if left_alone exclude_cols (label c) then v
                     else if mask add_miss_val v then Str change_to_val else v in
            w = v \/ w = Str change_to_val).
  { intros c v. simpl. destruct (left_alone exclude_cols (label c)); [tauto|].
    destruct (mask add_miss_val v); tauto. }
  destruct (mapM (fun c => astype_col coerce (dtype_of c) (subst c)) t)
    as [t0|] eqn:Em; simpl.
  - apply mapM_Forall2 in Em. eapply Forall2_impl; [|exact Em].
    intros c c' Hcc. unfold astype_col in Hcc.
    destruct (dtype_eqb (dtype_of (subst c)) (dtype_of c)).
    + inversion Hcc; subst c'. rewrite values_subst_map.
      apply Forall2_map_fun. intros v _. eexists. split; [apply Hsub|now left].
    + destruct (mapM (coerce (dtype_of c)) (values (subst c))) as [vs'|] eqn:Ev;
        [|discriminate]. simpl in Hcc. inversion Hcc; subst c'. simpl.
      apply mapM_Forall2 in Ev. rewrite values_subst_map in Ev.
      apply Forall2_after_map in Ev.
      eapply Forall2_weaken; [|exact Ev]. simpl. intros v v' Hv.
      eexists. split; [apply Hsub|eauto].
  - apply rows_in_place_map. intros c _. rewrite values_subst_map.
    apply Forall2_map_fun. intros v _. eexists. split; [apply Hsub|now left].
Qed.

Lemma astype_subst_dtypes (l l' : table) :
  Forall2 (fun c c' => astype_col coerce (dtype_of c) (subst c) = Some c') l l' ->
  dtypes l' = dtypes l /\ columns l' = columns l.
Proof.
  unfold dtypes, columns.
  induction 1 as [|c c' l l' Hcc _ IH]; simpl; [auto|].
  apply astype_col_dtype in Hcc. destruct Hcc as [Hd Hl].
  rewrite label_subst in Hl. destruct IH. split; congruence.
Qed.

(** C4. On a well-typed table with unique labels, and with a cast that
    gives back a value that is of the dtype already: when
    [update_other_missing] returns, every column has the dtype it had
    before the call (and its label); and the call raises exactly when some
    column that is open to the substitution holds the value looked for and
    the value written in its place cannot be cast to the dtype of that
    column. *)
Theorem update_other_missing_types (t : table) :
  NoDup (columns t) ->
  well_typed t = true ->
  (forall t',
      update_other_missing coerce add_miss_val change_to_val exclude_cols t
      = Returned t' ->
      dtypes t' = dtypes t /\ columns t' = columns t)
  /\
  ((exists e t1,
       update_other_missing coerce add_miss_val change_to_val exclude_cols t
       = Raised e t1)
   <->
   exists c, In c t
             /\ left_alone exclude_cols (label c) = false
             /\ (exists v, In v (values c) /\ mask add_miss_val v = true)
             /\ coerce (dtype_of c) (Str change_to_val) = None).
Proof.
  intros Hn Hwt. rewrite update_other_missing_unfold by assumption.
  destruct (mapM (fun c => astype_col coerce (dtype_of c) (subst c)) t)
    as [t0|] eqn:Em.
  - split.
    + intros t' H. inversion H; subst t'. apply mapM_Forall2 in Em.
      now apply astype_subst_dtypes.
    + split.
      * intros [e [t1 H]]. discriminate H.
      * intros [c [Hc H]]. apply (astype_subst_fails t c Hwt Hc) in H.
        assert (N : mapM (fun c => astype_col coerce (dtype_of c) (subst c)) t
                    = None) by (apply mapM_None; eauto).
        congruence.
  - split.
    + intros t' H. discriminate H.
    + split.
      * intros _. apply mapM_None in Em. destruct Em as [c [Hc H]].
        exists c. split; [assumption|].
        now apply (astype_subst_fails t c Hwt Hc).
      * intros _. eauto.
Qed.

End OtherMissing.

Lemma coerce_dec_holds (d : dtype) (v : cell) :
  holds d v = true -> coerce_dec d v = Some v.
Proof. destruct d, v; simpl; intro H; try discriminate; reflexivity. Qed.

Lemma update_other_missing_types_witness :
  dtypes [mkcol "AGE" DInt64 [Int 7; Int 6]; mkcol "FNAME" DObject [Str "N"]]
  = dtypes [mkcol "AGE" DInt64 [Int 5; Int 6]; mkcol "FNAME" DObject [Str "N"]]
  /\ columns [mkcol "AGE" DInt64 [Int 7; Int 6]; mkcol "FNAME" DObject [Str "N"]]
     = columns [mkcol "AGE" DInt64 [Int 5; Int 6]; mkcol "FNAME" DObject [Str "N"]].
Proof.
  apply (proj1 (update_other_missing_types coerce_dec (Int 5) "7" (StrList [])
                  coerce_dec_holds
                  [mkcol "AGE" DInt64 [Int 5; Int 6];
                   mkcol "FNAME" DObject [Str "N"]]
                  (unique_NoDup ["AGE"; "FNAME"] eq_refl) eq_refl)).
  vm_compute. reflexivity.
Defined.

(** ** convert_num_dtypes *)

Lemma list_remove_Some (x : string) (l l' : list string) :
  Py.list_remove x l = Some l' ->
  In x l /\ forall y, In y l' -> In y l.
Proof.
  revert l'. induction l as [|a l IH]; simpl; intros l' H; [discriminate|].
  destruct (String.eqb_spec x a) as [->|Hne].
  - inversion H; subst. auto.
  - destruct (Py.list_remove x l) as [r|]; [|discriminate].
    inversion H; subst. destruct (IH r eq_refl) as [Hx Hsub].
    split; [now right|]. intros y [->|Hy]; auto.
Qed.

Lemma list_remove_NoDup (x : string) (l l' : list string) :
  NoDup l -> Py.list_remove x l = Some l' ->
  NoDup l' /\ forall y, In y l' <-> In y l /\ y <> x.
Proof.
  revert l'. induction l as [|a l IH]; simpl; intros l' Hn H; [discriminate|].
  inversion Hn as [|? ? Hnotin Hn']; subst.
  destruct (String.eqb_spec x a) as [->|Hne].
  - inversion H; subst. split; [assumption|]. intro y. split.
    + intro Hy. split; [now right|]. intros ->. contradiction.
    + intros [[->|Hy] Hne]; [congruence|assumption].
  - destruct (Py.list_remove x l) as [r|] eqn:Er; [|discriminate].
    inversion H; subst. destruct (IH r Hn' eq_refl) as [Hnr Hiff].
    split.
    + constructor; [|assumption]. intro Ha. apply Hiff in Ha. tauto.
    + intro y. simpl. rewrite Hiff. split.
      * intros [->|[Hy Hyx]]; [split; [now left|congruence]|tauto].
      * intros [[->|Hy] Hyx]; [now left|tauto].
Qed.

Lemma list_remove_In (x : string) (l : list string) :
  In x l -> exists l', Py.list_remove x l = Some l'.
Proof.
  induction l as [|a l IH]; simpl; intro H; [contradiction|].
  destruct (String.eqb_spec x a) as [->|Hne]; [eauto|].
  destruct H as [->|H]; [congruence|].
  destruct (IH H) as [r ->]. simpl. eauto.
Qed.

Lemma remove_each_Some (exclude cols : list string) :
  NoDup cols -> NoDup exclude -> incl exclude cols ->
  exists cols', remove_each exclude cols = Some cols'
                /\ NoDup cols'
                /\ forall y, In y cols' <-> In y cols /\ ~ In y exclude.
Proof.
  revert cols. induction exclude as [|c r IH]; simpl; intros cols Hn He Hi.
  - exists cols. repeat split; tauto.
  - inversion He as [|? ? Hc Hr]; subst.
    destruct (list_remove_In c cols) as [cols1 E1]; [apply Hi; now left|].
    rewrite E1. destruct (list_remove_NoDup c cols cols1 Hn E1) as [Hn1 H1].
    destruct (IH cols1 Hn1 Hr) as [cols' [E' [Hn' H']]].
    + intros y Hy. apply H1. split; [apply Hi; now right|]. congruence.
    + exists cols'. split; [assumption|]. split; [assumption|].
      intro y. rewrite H', H1. split.
      * intros [[Hy Hne] Hnr]. split; [assumption|]. intros [->|Hy']; tauto.
      * intros [Hy Hnot]. split; [split; [assumption|]|].
        -- intros ->. apply Hnot. now left.
        -- intro Hr'. apply Hnot. now right.
Qed.

Lemma remove_each_None (exclude cols : list string) :
  (exists l, In l exclude /\ ~ In l cols) -> remove_each exclude cols = None.
Proof.
  revert cols. induction exclude as [|c r IH]; simpl; intros cols [l [Hl Hn]].
  - contradiction.
  - destruct (Py.list_remove c cols) as [cols1|] eqn:E1; [|reflexivity].
    apply list_remove_Some in E1. destruct E1 as [Hc Hsub].
    apply IH. exists l. destruct Hl as [->|Hl]; [contradiction|].
    split; [assumption|]. intro H. apply Hn. now apply Hsub.
Qed.

Lemma filter_label_absent (t : table) (col : string) :
  ~ In col (columns t) ->
  filter (fun c => String.eqb (label c) col) t = [].
Proof.
  induction t as [|a t IH]; simpl; intro H; [reflexivity|].
  destruct (String.eqb_spec (label a) col) as [E|_]; [tauto|].
  apply IH. tauto.
Qed.

Lemma filter_label_one (t : table) (c : column) :
  NoDup (columns t) -> In c t ->
  filter (fun c' => String.eqb (label c') (label c)) t = [c].
Proof.
  induction t as [|a t IH]; simpl; intros Hn Hc; [contradiction|].
  inversion Hn as [|? ? Hnotin Hn']; subst.
  destruct Hc as [->|Hc].
  - rewrite String.eqb_refl. f_equal. now apply filter_label_absent.
  - destruct (String.eqb_spec (label a) (label c)) as [E|_].
    + exfalso. apply Hnotin. rewrite E. now apply in_map.
    + now apply IH.
Qed.

Section ConvertNumDtypes.

Variable to_numeric : bool -> column -> option column.
Variable as_int : bool.

Lemma label_converted (c : column) :
  label (converted to_numeric as_int c) = label c.
Proof. unfold converted. now destruct (to_numeric as_int c). Qed.

Lemma convert_col_map (t : table) (col : string) :
  NoDup (columns t) ->
  convert_col to_numeric as_int t col
  = map (fun c => if String.eqb (label c) col
                  then converted to_numeric as_int c else c) t.
Proof.
  intro Hn. unfold convert_col, series.
  destruct (in_dec string_dec col (columns t)) as [Hin|Hout].
  - apply in_map_iff in Hin. destruct Hin as [c [<- Hc]].
    rewrite filter_label_one by assumption.
    unfold converted, setitem.
    destruct (to_numeric as_int c) as [s|] eqn:Es.
    + apply map_ext_in. intros c' Hc'.
      destruct (String.eqb_spec (label c') (label c)) as [E|_]; [|reflexivity].
      rewrite (label_inj t c' c Hn Hc' Hc E). now rewrite Es.
    + rewrite <- (map_id t) at 1. apply map_ext_in. intros c' Hc'.
      destruct (String.eqb_spec (label c') (label c)) as [E|_]; [|reflexivity].
      rewrite (label_inj t c' c Hn Hc' Hc E). now rewrite Es.
  - rewrite filter_label_absent by assumption.
    rewrite <- (map_id t) at 1. apply map_ext_in. intros c' Hc'.
    destruct (String.eqb_spec (label c') col) as [E|_]; [|reflexivity].
    exfalso. apply Hout. rewrite <- E. now apply in_map.
Qed.

Lemma fold_convert_col (cols : list string) (t : table) :
  NoDup (columns t) -> NoDup cols ->
  fold_left (convert_col to_numeric as_int) cols t
  = map (fun c => if Py.mem (label c) cols
                  then converted to_numeric as_int c else c) t.
Proof.
  revert t. induction cols as [|col cols IH]; simpl; intros t Hn Hc.
  - now rewrite map_id.
  - inversion Hc as [|? ? Hnotin Hc']; subst.
    rewrite convert_col_map by assumption.
    rewrite IH; [|unfold columns; rewrite map_map|assumption].
    + rewrite map_map. apply map_ext. intro c.
      rewrite (String.eqb_sym (label c) col).
      destruct (String.eqb_spec col (label c)) as [E|_]; simpl.
      * rewrite label_converted, <- E.
        destruct (Py.mem col cols) eqn:Em; [|reflexivity].
        apply mem_In in Em. contradiction.
      * reflexivity.
    + erewrite map_ext; [exact Hn|]. intro c. simpl.
      destruct (String.eqb (label c) col); [apply label_converted|reflexivity].
Qed.

End ConvertNumDtypes.

(** C5, as stated, fails: when [exclude] names a label the table does not
    have, [columns.remove] raises, outside the [try], and the [ValueError]
    reaches the caller. *)
Lemma convert_num_dtypes_raises :
  ~ (forall (to_numeric : bool -> column -> option column)
            (exclude : list string) (as_int : bool) (t : table) (c : column),
        In c t -> ~ In (label c) exclude ->
        exists t',
          convert_num_dtypes to_numeric exclude as_int t = Returned t'
          /\ (In c t' \/
              exists s, to_numeric as_int c = Some s
                        /\ In (mkcol (label c) (dtype_of s) (values s)) t')).
Proof.
  intro H.
  destruct (H to_numeric_dec ["ID"] false [mkcol "Q1" DObject [Str "x"]]
              (mkcol "Q1" DObject [Str "x"]) (or_introl eq_refl))
    as [t' [E _]].
  - simpl. intros [E|[]]. discriminate E.
  - vm_compute in E. discriminate E.
Qed.

(** C5, amended.  On a table with unique labels: when [exclude] names
    columns of the table, each once, [convert_num_dtypes] returns, the
    columns named in [exclude] are as they were, and every other column is
    either what [pd.to_numeric] returned for it (asked to downcast to
    integers when [as_int] is set) or, when [pd.to_numeric] raised, as it
    was: a column is never converted in part.  When [exclude] names a
    label that the table does not have, the call raises [ValueError] and
    the table is as it was. *)
Theorem convert_num_dtypes_columns
    (to_numeric : bool -> column -> option column) (exclude : list string)
    (as_int : bool) (t : table) :
  NoDup (columns t) ->
  (NoDup exclude -> incl exclude (columns t) ->
   convert_num_dtypes to_numeric exclude as_int t
   = Returned (map (fun c => if Py.mem (label c) exclude then c
                             else converted to_numeric as_int c) t))
  /\ ((exists l, In l exclude /\ ~ In l (columns t)) ->
      convert_num_dtypes to_numeric exclude as_int t = Raised ValueError t).
Proof.
  intro Hn. unfold convert_num_dtypes. split.
  - intros He Hi.
    destruct (remove_each_Some exclude (columns t) Hn He Hi)
      as [cols [E [Hnc Hiff]]].
    rewrite E, fold_convert_col by assumption. f_equal.
    apply map_ext_in. intros c Hc.
    destruct (Py.mem (label c) exclude) eqn:Ex.
    + destruct (Py.mem (label c) cols) eqn:Em; [|reflexivity].
      apply mem_In in Em. apply Hiff in Em. apply mem_In in Ex. tauto.
    + assert (Hin : In (label c) cols).
      { apply Hiff. split; [now apply in_map|].
        intro H. apply mem_In in H. congruence. }
      apply mem_In in Hin. now rewrite Hin.
  - intro H. now rewrite remove_each_None.
Qed.

Lemma convert_num_dtypes_columns_witness :
  convert_num_dtypes to_numeric_dec ["ID"] true
    [mkcol "Q1" DObject [Str "1"; Str "2"];
     mkcol "Q2" DObject [Str "1"; Str "x"];
     mkcol "ID" DObject [Str "7"; Str "8"]]
  = Returned
      [mkcol "Q1" DInt64 [Int 1; Int 2];
       mkcol "Q2" DObject [Str "1"; Str "x"];
       mkcol "ID" DObject [Str "7"; Str "8"]].
Proof.
  apply (proj1 (convert_num_dtypes_columns to_numeric_dec ["ID"] true
                  [mkcol "Q1" DObject [Str "1"; Str "2"];
                   mkcol "Q2" DObject [Str "1"; Str "x"];
                   mkcol "ID" DObject [Str "7"; Str "8"]]
                  (unique_NoDup ["Q1"; "Q2"; "ID"] eq_refl))).
  - exact (unique_NoDup ["ID"] eq_refl).
  - intros l [<-|[]]. simpl. tauto.
Defined.

(** ** Rows and columns, operation by operation *)

Lemma replace_ML_cases (v : cell) :
  replace_cell [(Str "M", ".M"); (Str "L", ".L")] v = v
  \/ replace_cell [(Str "M", ".M"); (Str "L", ".L")] v = Str ".M"
  \/ replace_cell [(Str "M", ".M"); (Str "L", ".L")] v = Str ".L".
Proof.
  unfold replace_cell. simpl.
  destruct (mask (Str "L") v); [tauto|].
  destruct (mask (Str "M") v); tauto.
Qed.

Lemma um_cell_cases (miss_val log_skip_val : string)
    (miss_additions logskip_additions : list cell)
    (blank named name_col : bool) (v : cell) :
  let v' := um_cell miss_val log_skip_val miss_additions logskip_additions
              blank named name_col v in
  v' = v \/ v' = Str miss_val \/ v' = Str log_skip_val.
Proof.
  unfold um_cell. cbv zeta.
  set (ML := if blank then [Str ".M"]
             else [Str ".M"; Str ""; Str " "; Str "nan"; Str "NaN"; NA; NaN;
                   Str "."]).
  set (LS := if named then [Str ".L"] else [Str ".L"; Str "L"]).
  set (v1 := if name_col then v
             else replace_cell [(Str "M", ".M"); (Str "L", ".L")] v).
  assert (H1 : v1 = v \/ v1 = Str ".M" \/ v1 = Str ".L").
  { unfold v1. destruct name_col; [now left|apply replace_ML_cases]. }
  assert (HM : marked (extend ML miss_additions) (Str ".M") = true).
  { rewrite marked_extend. unfold ML. now destruct blank. }
  assert (HL : marked (extend LS logskip_additions) (Str ".L") = true).
  { rewrite marked_extend. unfold LS. now destruct named. }
  rewrite !replace_cell_dict_of.
  destruct H1 as [-> | [-> | ->]].
  - destruct (marked (extend ML miss_additions) v);
      match goal with
      | |- context [if ?b then _ else _] => destruct b
      end; tauto.
  - rewrite HM.
    destruct (marked (extend LS logskip_additions) (Str miss_val)); tauto.
  - destruct (marked (extend ML miss_additions) (Str ".L")).
    + destruct (marked (extend LS logskip_additions) (Str miss_val)); tauto.
    + rewrite HL. tauto.
Qed.

Lemma update_missing_rows (miss_val log_skip_val : string)
    (miss_additions logskip_additions : list cell) (blank : bool) (t : table) :
  NoDup (columns t) ->
  rows_in_place
    (fun v v' => v' = v \/ v' = Str miss_val \/ v' = Str log_skip_val)
    t (update_missing miss_val log_skip_val miss_additions logskip_additions
         blank t).
Proof.
  intro Hn. unfold update_missing. cbv zeta.
  rewrite update_subset by assumption.
  assert (E : forall named : bool,
    rows_in_place
      (fun v v' => v' = v \/ v' = Str miss_val \/ v' = Str log_skip_val) t
      (replace
         (dict_of (extend (if named then [Str ".L"] else [Str ".L"; Str "L"])
                     logskip_additions) log_skip_val)
         (replace
            (dict_of
               (extend
                  (if blank then [Str ".M"]
                   else [Str ".M"; Str ""; Str " "; Str "nan"; Str "NaN"; NA;
                         NaN; Str "."]) miss_additions) miss_val)
            (map (fun c => if Py.mem (label c) (filter is_name_col (columns t))
                           then c
                           else update_col c
                                  (replace_col [(Str "M", ".M"); (Str "L", ".L")] c))
               t)))).
  { intro named. unfold replace. rewrite !map_map.
    apply rows_in_place_map. intros c Hc.
    rewrite !values_replace_col.
    set (b := Py.mem (label c) (filter is_name_col (columns t))).
    assert (Ev : values (if b then c
                         else update_col c
                                (replace_col [(Str "M", ".M"); (Str "L", ".L")] c))
                 = map (fun v => if b then v
                                 else replace_cell
                                        [(Str "M", ".M"); (Str "L", ".L")] v)
                     (values c)).
    { destruct b; [now rewrite map_id|apply values_update_replace]. }
    rewrite Ev, !map_map. apply Forall2_map_fun. intros v _.
    apply (um_cell_cases miss_val log_skip_val miss_additions
             logskip_additions blank named b v). }
  match goal with
  | |- context [if ?b then replace _ _ else _] => destruct b
  end; [exact (E true)|exact (E false)].
Qed.

Lemma replace_dict_of_rows (keys : list cell) (x : string) (t : table) :
  rows_in_place (fun v v' => v' = v \/ v' = Str x) t (replace (dict_of keys x) t).
Proof.
  unfold replace. apply rows_in_place_map. intros c _.
  rewrite values_replace_col. apply Forall2_map_fun. intros v _.
  rewrite replace_cell_dict_of. destruct (marked keys v); tauto.
Qed.

Lemma set_all_object_rows (t : table) : rows_in_place eq t (set_all_object t).
Proof.
  unfold set_all_object. apply rows_in_place_map. intros c _.
  destruct (dtype_of c); apply Forall2_eq_refl.
Qed.

Lemma set_int_object_rows (t : table) :
  rows_in_place (fun v v' => v' = Str (sub_dot_zeros (py_str v))) t
    (set_int_object t).
Proof.
  unfold set_int_object, set_all_object. rewrite map_map.
  apply rows_in_place_map. intros c _.
  destruct (dtype_of c) eqn:E; simpl; rewrite ?E; simpl;
    now apply Forall2_map_fun.
Qed.

Lemma capitalize_cols_rows (t : table) : rows_in_place eq t (capitalize_cols t).
Proof.
  unfold capitalize_cols. apply rows_in_place_map. intros c _.
  apply Forall2_eq_refl.
Qed.

Lemma rows_in_place_refl (g : cell -> cell -> Prop) (t : table) :
  (forall v, g v v) -> rows_in_place g t t.
Proof.
  intro Hg. rewrite <- (map_id t) at 2. apply rows_in_place_map.
  intros c _. simpl. rewrite <- (map_id (values c)) at 2.
  now apply Forall2_map_fun.
Qed.

Lemma remove_each_NoDup (exclude cols cols' : list string) :
  NoDup cols -> remove_each exclude cols = Some cols' -> NoDup cols'.
Proof.
  revert cols. induction exclude as [|c r IH]; simpl; intros cols Hn H.
  - now inversion H; subst.
  - destruct (Py.list_remove c cols) as [cols1|] eqn:E1; [|discriminate].
    apply (IH cols1); [|assumption].
    now apply (list_remove_NoDup c cols cols1).
Qed.

Lemma to_numeric_dec_rows (b : bool) (c s : column) :
  to_numeric_dec b c = Some s ->
  Forall2 (fun v v' => coerce_dec DInt64 v = Some v') (values c) (values s).
Proof.
  unfold to_numeric_dec.
  destruct (mapM (coerce_dec DInt64) (values c)) as [vs|] eqn:E; [|discriminate].
  simpl. intro H. inversion H; subst. simpl. now apply mapM_Forall2.
Qed.

Section Rows.

Variable coerce : dtype -> cell -> option cell.
Variable to_numeric : bool -> column -> option column.

(** The relation between a cell and what [pd.to_numeric] reads in it. *)
Variable reads : cell -> cell -> Prop.

(** [pd.to_numeric] answers row by row. *)
Hypothesis to_numeric_rows :
  forall b c s, to_numeric b c = Some s -> Forall2 reads (values c) (values s).

Lemma convert_num_dtypes_rows (exclude : list string) (as_int : bool)
    (t : table) :
  NoDup (columns t) ->
  rows_in_place (fun v v' => v' = v \/ reads v v') t
    (data_of (convert_num_dtypes to_numeric exclude as_int t)).
Proof.
  intro Hn. unfold convert_num_dtypes.
  destruct (remove_each exclude (columns t)) as [cols|] eqn:E; simpl.
  - rewrite fold_convert_col;
      [|assumption|now apply (remove_each_NoDup exclude (columns t))].
    apply rows_in_place_map. intros c _.
    destruct (Py.mem (label c) cols).
    + unfold converted. destruct (to_numeric as_int c) as [s|] eqn:Es; simpl.
      * eapply Forall2_weaken; [|exact (to_numeric_rows _ _ _ Es)]. tauto.
      * eapply Forall2_weaken; [|apply Forall2_eq_refl]. intros; now left.
    + eapply Forall2_weaken; [|apply Forall2_eq_refl]. intros; now left.
  - apply rows_in_place_refl. now left.
Qed.

(** C7. On a table with unique labels, and with a [pd.to_numeric] that
    answers row by row: each of [capitalize_cols], [update_blanks],
    [update_missing], [update_other_missing], [set_int_object],
    [set_all_object] and [convert_num_dtypes] leaves a table (the one it
    returns, or the one it leaves behind when it raises) with as many
    columns, as many rows in each, and every cell either untouched or
    rewritten in its place.  [fix_index] keeps, untouched and in their
    order, the columns whose label starts neither with "unnamed" nor with
    "UNNAMED", and removes the others. *)
Theorem operations_keep_rows (t : table) (blank_val : string)
    (extras : list cell) (miss_val log_skip_val : string)
    (miss_additions logskip_additions : list cell) (blank : bool)
    (add_miss_val : cell) (change_to_val : string)
    (exclude_cols : str_or_list) (exclude : list string) (as_int : bool) :
  NoDup (columns t) ->
  keeps_rows eq t (capitalize_cols t)
  /\ keeps_rows (fun v v' => v' = v \/ v' = Str blank_val) t
       (update_blanks blank_val extras t)
  /\ keeps_rows
       (fun v v' => v' = v \/ v' = Str miss_val \/ v' = Str log_skip_val) t
       (update_missing miss_val log_skip_val miss_additions logskip_additions
          blank t)
  /\ keeps_rows
       (fun v v' =>
          exists w, (w = v \/ w = Str change_to_val)
                    /\ (v' = w \/ exists d, coerce d w = Some v')) t
       (data_of (update_other_missing coerce add_miss_val change_to_val
                   exclude_cols t))
  /\ keeps_rows (fun v v' => v' = Str (sub_dot_zeros (py_str v))) t
       (set_int_object t)
  /\ keeps_rows eq t (set_all_object t)
  /\ keeps_rows (fun v v' => v' = v \/ reads v v') t
       (data_of (convert_num_dtypes to_numeric exclude as_int t))
  /\ fix_index t = filter (fun c => negb (index_artifact (label c))) t.
Proof.
  intro Hn.
  refine (conj _ (conj _ (conj _ (conj _ (conj _ (conj _ (conj _ _)))))));
    try apply rows_in_place_keeps.
  - apply capitalize_cols_rows.
  - apply replace_dict_of_rows.
  - now apply update_missing_rows.
  - now apply update_other_missing_rows.
  - apply set_int_object_rows.
  - apply set_all_object_rows.
  - now apply convert_num_dtypes_rows.
  - apply fix_index_filter.
Qed.

End Rows.

Lemma operations_keep_rows_witness :
  keeps_rows (fun v v' => v' = v \/ coerce_dec DInt64 v = Some v')
    [mkcol "FNAME" DObject [Str "M"; Str "L"];
     mkcol "Q1" DObject [Str "1"; Str "2"]]
    (data_of (convert_num_dtypes to_numeric_dec [] false
                [mkcol "FNAME" DObject [Str "M"; Str "L"];
                 mkcol "Q1" DObject [Str "1"; Str "2"]])).
Proof.
  apply (operations_keep_rows coerce_dec to_numeric_dec
           (fun v v' => coerce_dec DInt64 v = Some v') to_numeric_dec_rows
           [mkcol "FNAME" DObject [Str "M"; Str "L"];
            mkcol "Q1" DObject [Str "1"; Str "2"]]
           "-97" [] ".M" ".L" [] [] false (Str ".N") "-96" (StrList [])
           [] false (unique_NoDup ["FNAME"; "Q1"] eq_refl)).
Defined.

(** * Further properties of the operations *)

(** ** Column labels *)

Lemma upper_ascii_idem (c : ascii) :
  Py.upper_ascii (Py.upper_ascii c) = Py.upper_ascii c.
Proof. destruct c as [[] [] [] [] [] [] [] []]; reflexivity. Qed.

Lemma upper_idem (s : string) : Py.upper (Py.upper s) = Py.upper s.
Proof.
  induction s as [|c s IH]; simpl; [reflexivity|].
  now rewrite upper_ascii_idem, IH.
Qed.

Lemma upper_ascii_not_u (c : ascii) : Py.upper_ascii c <> "u"%char.
Proof. destruct c as [[] [] [] [] [] [] [] []]; discriminate. Qed.

Lemma upper_not_unnamed (s : string) :
  Py.startswith "unnamed" (Py.upper s) = false.
Proof.
  destruct s as [|c s]; [reflexivity|].
  change (Py.startswith "unnamed" (Py.upper (String c s)))
    with (if ascii_dec "u" (Py.upper_ascii c)
          then String.prefix "nnamed" (Py.upper s) else false).
  destruct (ascii_dec "u" (Py.upper_ascii c)) as [E|_]; [|reflexivity].
  exfalso. now apply (upper_ascii_not_u c).
Qed.

Lemma filter_map_swap {A B : Type} (p : B -> bool) (f : A -> B) (l : list A) :
  filter p (map f l) = map f (filter (fun x => p (f x)) l).
Proof.
  induction l as [|x l IH]; simpl; [reflexivity|].
  destruct (p (f x)); simpl; now rewrite IH.
Qed.

Lemma fix_index_after_capitalize (t : table) :
  fix_index (capitalize_cols t)
  = capitalize_cols
      (filter (fun c => negb (unnamed_any_case (label c))) t).
Proof.
  rewrite fix_index_filter. unfold capitalize_cols.
  rewrite filter_map_swap. f_equal. apply filter_ext. intro c. simpl.
  unfold index_artifact. now rewrite upper_not_unnamed.
Qed.

Lemma columns_update (t other : table) : columns (update t other) = columns t.
Proof.
  unfold columns, update. rewrite map_map. apply map_ext. intro c.
  destruct (find (fun o => String.eqb (label o) (label c)) other);
    [apply label_update_col|reflexivity].
Qed.

Lemma columns_update_missing (miss_val log_skip_val : string)
    (miss_additions logskip_additions : list cell) (blank : bool) (t : table) :
  columns (update_missing miss_val log_skip_val miss_additions
             logskip_additions blank t) = columns t.
Proof.
  unfold update_missing. cbv zeta.
  match goal with
  | |- context [if ?b then replace _ _ else _] => destruct b
  end; now rewrite !columns_replace, columns_update.
Qed.

Lemma columns_set_all_object (t : table) : columns (set_all_object t) = columns t.
Proof.
  unfold columns, set_all_object. rewrite map_map. apply map_ext. intro c.
  now destruct (dtype_of c).
Qed.

Lemma columns_set_int_object (t : table) : columns (set_int_object t) = columns t.
Proof.
  unfold set_int_object. rewrite <- (columns_set_all_object t).
  unfold columns. rewrite map_map. apply map_ext. intro c.
  now destruct (dtype_of c).
Qed.

Lemma columns_convert_col (to_numeric : bool -> column -> option column)
    (as_int : bool) (t : table) (col : string) :
  columns (convert_col to_numeric as_int t col) = columns t.
Proof.
  unfold convert_col. destruct (series t col) as [c|]; [|reflexivity].
  destruct (to_numeric as_int c) as [s|]; [|reflexivity].
  unfold columns, setitem. rewrite map_map. apply map_ext. intro c'. simpl.
  destruct (String.eqb_spec (label c') col); simpl; congruence.
Qed.

Lemma columns_fold_convert (to_numeric : bool -> column -> option column)
    (as_int : bool) (cols : list string) (t : table) :
  columns (fold_left (convert_col to_numeric as_int) cols t) = columns t.
Proof.
  revert t. induction cols as [|col cols IH]; simpl; intro t; [reflexivity|].
  now rewrite IH, columns_convert_col.
Qed.

Lemma columns_astype (coerce : dtype -> cell -> option cell)
    (d : list (string * dtype)) (t t' : table) :
  astype coerce d t = Some t' -> columns t' = columns t.
Proof.
  unfold astype. intro H. apply mapM_Forall2 in H. unfold columns.
  induction H as [|c c' l l' Hc _ IH]; simpl; [reflexivity|].
  f_equal; [|assumption].
  destruct (dict_get (label c) d) as [dt|].
  - now apply astype_col_dtype in Hc.
  - now inversion Hc.
Qed.

(** X1. Upper-casing the labels twice is upper-casing them once, and the cells
    are not looked at. *)
Theorem capitalize_cols_idempotent (t : table) :
  capitalize_cols (capitalize_cols t) = capitalize_cols t
  /\ map values (capitalize_cols t) = map values t
  /\ dtypes (capitalize_cols t) = dtypes t.
Proof.
  unfold capitalize_cols, dtypes. rewrite !map_map. repeat split.
  apply map_ext. intro c. simpl. now rewrite upper_idem.
Qed.

(** X2. Run after [capitalize_cols], as [full_prep] does, [fix_index] removes
    the columns whose label starts with "unnamed" in any mix of cases, and
    only those. *)
Theorem fix_index_capitalized_any_case (t : table) :
  fix_index (capitalize_cols t)
  = capitalize_cols (filter (fun c => negb (unnamed_any_case (label c))) t).
Proof. apply fix_index_after_capitalize. Qed.

(** X3. The labels [full_prep] returns are the upper-cased labels of the
    columns that do not start with "unnamed" in any mix of cases, in their
    order. *)
Theorem full_prep_columns (miss_val log_skip_val : string) (blank : bool)
    (blank_val : string) (inpt_type : option string) (t : table) :
  columns (full_prep miss_val log_skip_val blank blank_val inpt_type t)
  = map Py.upper (filter (fun l => negb (unnamed_any_case l)) (columns t)).
Proof.
  assert (E : columns (fix_index (capitalize_cols t))
              = map Py.upper
                  (filter (fun l => negb (unnamed_any_case l)) (columns t))).
  { rewrite fix_index_after_capitalize. unfold columns, capitalize_cols.
    rewrite filter_map_swap, !map_map. reflexivity. }
  unfold full_prep. cbv zeta. destruct blank.
  - unfold update_blanks. now rewrite columns_update_missing, columns_replace.
  - now rewrite columns_update_missing.
Qed.

(** X4. None of the operations that rewrite cells renames, drops or reorders a
    column label, whether it returns or raises. *)
Theorem value_operations_keep_labels
    (coerce : dtype -> cell -> option cell)
    (to_numeric : bool -> column -> option column)
    (t : table) (blank_val : string) (extras : list cell)
    (miss_val log_skip_val : string)
    (miss_additions logskip_additions : list cell) (blank : bool)
    (add_miss_val : cell) (change_to_val : string)
    (exclude_cols : str_or_list) (exclude : list string) (as_int : bool) :
  columns (update_blanks blank_val extras t) = columns t
  /\ columns (update_missing miss_val log_skip_val miss_additions
                logskip_additions blank t) = columns t
  /\ columns (data_of (update_other_missing coerce add_miss_val change_to_val
                         exclude_cols t)) = columns t
  /\ columns (set_int_object t) = columns t
  /\ columns (set_all_object t) = columns t
  /\ columns (data_of (convert_num_dtypes to_numeric exclude as_int t))
     = columns t.
Proof.
  refine (conj _ (conj _ (conj _ (conj _ (conj _ _))))).
  - apply columns_replace.
  - apply columns_update_missing.
  - unfold update_other_missing. cbv zeta.
    match goal with
    | |- context [astype ?c ?d ?x] => destruct (astype c d x) as [t'|] eqn:E
    end; simpl.
    + apply columns_astype in E. now rewrite E, columns_update.
    + apply columns_update.
  - apply columns_set_int_object.
  - apply columns_set_all_object.
  - unfold convert_num_dtypes.
    destruct (remove_each exclude (columns t)); simpl;
      [apply columns_fold_convert|reflexivity].
Qed.

(** ** Name-bearing labels *)

Lemma prefix_split (p s : string) :
  String.prefix p s = true <-> exists b, s = (p ++ b)%string.
Proof.
  revert s. induction p as [|a p IH]; intro s.
  - split; [intros _; now exists s|]. intros _. now destruct s.
  - destruct s as [|c s]; simpl.
    + split; [discriminate|]. intros [b E]. discriminate E.
    + destruct (ascii_dec a c) as [E|Hne].
      * subst c. rewrite IH. split; intros [b E]; exists b; congruence.
      * split; [discriminate|]. intros [b E]. congruence.
Qed.

Lemma contains_nil (sub : string) :
  Py.contains sub EmptyString = String.prefix sub EmptyString.
Proof. unfold Py.contains. apply orb_false_r. Qed.

Lemma contains_cons (sub : string) (c : ascii) (s : string) :
  Py.contains sub (String c s)
  = String.prefix sub (String c s) || Py.contains sub s.
Proof. reflexivity. Qed.

Lemma contains_split (sub s : string) :
  Py.contains sub s = true <-> exists a b, s = (a ++ sub ++ b)%string.
Proof.
  split.
  - induction s as [|c s IH].
    + rewrite contains_nil. intro H. apply prefix_split in H.
      destruct H as [b E]. now exists EmptyString, b.
    + rewrite contains_cons. intro H. apply orb_true_iff in H.
      destruct H as [H|H].
      * apply prefix_split in H. destruct H as [b E]. now exists EmptyString, b.
      * destruct (IH H) as [a [b E]]. exists (String c a), b. simpl. congruence.
  - intros [a [b E]]. subst s. induction a as [|c a IH].
    + change (EmptyString ++ sub ++ b)%string with (sub ++ b)%string.
      assert (P : String.prefix sub (sub ++ b) = true)
        by (apply prefix_split; eauto).
      destruct (sub ++ b)%string as [|c r].
      * now rewrite contains_nil.
      * now rewrite contains_cons, P.
    + change (String c a ++ sub ++ b)%string
        with (String c (a ++ sub ++ b))%string.
      rewrite contains_cons, IH. apply orb_true_r.
Qed.

(** X5. A column is name-bearing exactly when the four letters NAME, in upper
    case, stand together somewhere in its label. *)
Theorem is_name_col_split (col : string) :
  is_name_col col = true <-> exists a b, col = (a ++ "NAME" ++ b)%string.
Proof. apply contains_split. Qed.

(** ** The loader *)

Lemma py_str_map_str (t : table) : map_str (map_str t) = map_str t.
Proof.
  unfold map_str. rewrite map_map. apply map_ext. intro c. simpl.
  now rewrite map_map.
Qed.

(** X6. What the loader holds after it was built from a table in memory: the
    labels and the number of rows of that table, columns of dtype [object]
    only, and texts only in the cells; turning it into texts once more
    changes nothing. *)
Theorem init_frame_all_text (io : readers) (kw : kwargs) (t t' : table) :
  init io [AFrame t] kw = Loaded t' ->
  columns t' = columns t
  /\ shape t' = shape t
  /\ (forall c, In c t' ->
        dtype_of c = DObject
        /\ forall v, In v (values c) -> exists s, v = Str s)
  /\ map_str t' = t'.
Proof.
  intro H. simpl in H. inversion H; subst t'. clear H.
  split; [|split; [|split]].
  - unfold columns, map_str. rewrite map_map. reflexivity.
  - unfold shape, map_str. rewrite map_map. apply map_ext. intro c. simpl.
    apply length_map.
  - intros c Hc. unfold map_str in Hc. apply in_map_iff in Hc.
    destruct Hc as [c0 [<- _]]. simpl. split; [reflexivity|].
    intros v Hv. apply in_map_iff in Hv. destruct Hv as [v0 [<- _]]. eauto.
  - apply py_str_map_str.
Qed.

Lemma init_frame_all_text_witness :
  map_str [mkcol "Q1" DObject [Str "x"; Str "nan"; Str "7"]]
  = [mkcol "Q1" DObject [Str "x"; Str "nan"; Str "7"]].
Proof.
  apply (init_frame_all_text (mkreaders (fun _ _ => []) (fun _ _ => []))
           (mkkw None None None None)
           [mkcol "Q1" DObject [Str "x"; NaN; Int 7]]
           [mkcol "Q1" DObject [Str "x"; Str "nan"; Str "7"]]).
  reflexivity.
Defined.

(** X7. How the loader reads a path: a path that holds [.sas7bdat] anywhere is
    read as a SAS file, with the user-missing values kept unless
    [keep_missing] says otherwise and whatever the delimiter; else a path
    that holds [.csv] anywhere is read as a delimited text, with the comma as
    the default delimiter and whatever [keep_missing]; and the call raises
    [AttributeError] exactly when the path holds neither. *)
Theorem init_path_kinds (io : readers) (kw : kwargs) (path : string) :
  (Py.contains ".sas7bdat" path = true ->
   init io [AStr path] kw
   = Loaded (read_sas7bdat io path
               (match kw_keep_missing kw with Some k => k | None => true end)))
  /\ (Py.contains ".sas7bdat" path = false ->
      Py.contains ".csv" path = true ->
      init io [AStr path] kw
      = Loaded (read_csv io path
                  (match kw_delimiter kw with Some d => d | None => "," end)))
  /\ (init io [AStr path] kw = Failed AttributeError <->
      Py.contains ".sas7bdat" path = false /\ Py.contains ".csv" path = false).
Proof.
  unfold init, of_path, read_sas_csv.
  destruct (Py.contains ".sas7bdat" path) eqn:Es.
  - split; [|split].
    + intros _. now destruct (kw_keep_missing kw) as [[]|].
    + discriminate.
    + split; [|intros [H _]; discriminate H].
      destruct (kw_keep_missing kw) as [[]|]; discriminate.
  - destruct (Py.contains ".csv" path) eqn:Ec.
    + split; [discriminate|]. split; [reflexivity|].
      split; [discriminate|]. intros [_ H]. discriminate H.
    + split; [discriminate|]. split; [discriminate|]. tauto.
Qed.

Lemma init_path_kinds_witness :
  init (mkreaders (fun _ _ => [mkcol "A" DObject [NaN]])
          (fun _ _ => [mkcol "A" DObject [Str "1"]]))
    [AStr "wave1.sas7bdat.csv"] (mkkw (Some ";") None None None)
  = Loaded [mkcol "A" DObject [NaN]].
Proof.
  apply (proj1 (init_path_kinds
                  (mkreaders (fun _ _ => [mkcol "A" DObject [NaN]])
                     (fun _ _ => [mkcol "A" DObject [Str "1"]]))
                  (mkkw (Some ";") None None None) "wave1.sas7bdat.csv")).
  reflexivity.
Defined.

(** ** update_missing, cell by cell *)

Lemma replace_cell_notna (d : list (cell * string)) (v : cell) :
  isna v = false -> isna (replace_cell d v) = false.
Proof.
  intro H. destruct (replace_cell_cases d v) as [E|[x E]]; rewrite E; auto.
Qed.

Lemma mask_Str_isna (s : string) (v : cell) :
  isna v = true -> mask (Str s) v = false.
Proof. intro H. unfold mask. simpl. now rewrite H. Qed.

Lemma mask_Str_other (s : string) (v : cell) :
  v <> Str s -> mask (Str s) v = false.
Proof.
  intro H. destruct (mask (Str s) v) eqn:E; [|reflexivity].
  apply mask_Str in E. contradiction.
Qed.

Lemma marked_strings_false (keys : list string) (v : cell) :
  ~ In v (map Str keys) -> marked (map Str keys) v = false.
Proof.
  intro H. destruct (marked (map Str keys) v) eqn:E; [|reflexivity].
  apply marked_strings in E. destruct E as [s [-> Hs]].
  exfalso. apply H. now apply in_map.
Qed.

Lemma marked_absent (keys : list cell) (v : cell) :
  isna v = true -> marked keys v = existsb isna keys.
Proof.
  intro H. unfold marked. induction keys as [|k keys IH]; simpl; [reflexivity|].
  rewrite IH. f_equal. unfold mask. rewrite H. now destruct (isna k).
Qed.

Lemma existsb_isna_false (keys : list cell) :
  (forall k, In k keys -> isna k = false) -> existsb isna keys = false.
Proof.
  intro H. destruct (existsb isna keys) eqn:E; [|reflexivity].
  apply existsb_exists in E. destruct E as [k [Hk Ek]].
  rewrite (H k Hk) in Ek. discriminate.
Qed.

Lemma replace_ML_other (v : cell) :
  v <> Str "M" -> v <> Str "L" ->
  replace_cell [(Str "M", ".M"); (Str "L", ".L")] v = v.
Proof.
  intros HM HL. unfold replace_cell. simpl.
  now rewrite (mask_Str_other "M" v HM), (mask_Str_other "L" v HL).
Qed.

Lemma label_at_columns (t t' : table) (j : nat) :
  columns t' = columns t -> label_at t' j = label_at t j.
Proof.
  unfold label_at, columns. intro H.
  rewrite <- !nth_error_map. now rewrite H.
Qed.

Lemma has_name_col_columns (t t' : table) :
  columns t' = columns t -> has_name_col t' = has_name_col t.
Proof. unfold has_name_col. now intros ->. Qed.

Lemma cell_at_label_of (t : table) (j i : nat) (v : cell) :
  cell_at t j i = Some v -> exists l, label_at t j = Some l.
Proof.
  unfold cell_at, label_at. destruct (nth_error t j); simpl; eauto.
  discriminate.
Qed.

(** X9. A cell that is no marker (the empty text, the blank, [.], [nan],
    [NaN], [.M], [.L], an absent value, or one of the caller's extras) nor
    a bare "M" or "L" is left as it is by [update_missing], in every
    column. *)
Theorem update_missing_keeps_data (miss_val log_skip_val : string)
    (miss_additions logskip_additions : list cell) (blank : bool)
    (t : table) (j i : nat) (v : cell) :
  NoDup (columns t) ->
  cell_at t j i = Some v ->
  isna v = false ->
  ~ In v (map Str [".M"; ".L"; "M"; "L"; EmptyString; " "; "nan"; "NaN"; "."]) ->
  marked miss_additions v = false ->
  marked logskip_additions v = false ->
  cell_at (update_missing miss_val log_skip_val miss_additions
             logskip_additions blank t) j i = Some v.
Proof.
  intros Hn Hv Hna Hout Hm Hk.
  destruct (cell_at_label_of t j i v Hv) as [l Hl].
  rewrite cell_at_update_missing, Hl, Hv by assumption. f_equal.
  assert (Hne : forall s, In s [".M"; ".L"; "M"; "L"; EmptyString; " "; "nan";
                                "NaN"; "."] -> v <> Str s).
  { intros s Hs E. apply Hout. rewrite E. now apply in_map. }
  unfold um_cell. cbv zeta.
  assert (E1 : (if is_name_col l then v
                else replace_cell [(Str "M", ".M"); (Str "L", ".L")] v) = v).
  { destruct (is_name_col l); [reflexivity|].
    apply replace_ML_other; apply Hne; simpl; tauto. }
  rewrite E1, (replace_cell_dict_of _ miss_val v), marked_extend, Hm,
    orb_false_r.
  assert (E2 : marked (if blank then [Str ".M"]
                       else [Str ".M"; Str EmptyString; Str " "; Str "nan";
                             Str "NaN"; NA; NaN; Str "."]) v = false).
  { destruct blank; unfold marked; simpl;
      rewrite ?(mask_Str_other ".M"), ?(mask_Str_other EmptyString),
        ?(mask_Str_other " "), ?(mask_Str_other "nan"),
        ?(mask_Str_other "NaN"), ?(mask_Str_other ".")
        by (apply Hne; simpl; tauto);
      unfold mask; simpl; rewrite ?Hna; reflexivity. }
  rewrite E2, replace_cell_dict_of, marked_extend, Hk, orb_false_r.
  assert (E3 : marked (if has_name_col t then [Str ".L"]
                       else [Str ".L"; Str "L"]) v = false).
  { destruct (has_name_col t); unfold marked; simpl;
      rewrite ?(mask_Str_other ".L"), ?(mask_Str_other "L")
        by (apply Hne; simpl; tauto); reflexivity. }
  now rewrite E3.
Qed.

Lemma update_missing_keeps_data_witness :
  cell_at (update_missing ".M" ".L" [] [] false
             [mkcol "FNAME" DObject [Str "Mary"; Str "M"];
              mkcol "Q1" DObject [Str "12"; Str "L"]]) 1 0
  = Some (Str "12").
Proof.
  apply (update_missing_keeps_data ".M" ".L" [] [] false
           [mkcol "FNAME" DObject [Str "Mary"; Str "M"];
            mkcol "Q1" DObject [Str "12"; Str "L"]] 1%nat 0%nat (Str "12")
           (unique_NoDup ["FNAME"; "Q1"] eq_refl) eq_refl eq_refl).
  - simpl. intuition discriminate.
  - reflexivity.
  - reflexivity.
Defined.

Lemma um_cell_notna (miss_val log_skip_val : string)
    (miss_additions logskip_additions : list cell) (named name_col : bool)
    (v : cell) :
  isna (um_cell miss_val log_skip_val miss_additions logskip_additions
          false named name_col v) = false.
Proof.
  unfold um_cell. cbv zeta iota.
  apply replace_cell_notna.
  set (v1 := if name_col then v
             else replace_cell [(Str "M", ".M"); (Str "L", ".L")] v).
  destruct (isna v1) eqn:E1; [|now apply replace_cell_notna].
  rewrite replace_cell_dict_of, marked_extend.
  assert (M : marked [Str ".M"; Str ""; Str " "; Str "nan"; Str "NaN"; NA; NaN;
                      Str "."] v1 = true).
  { rewrite (marked_absent _ v1 E1). reflexivity. }
  now rewrite M.
Qed.

(** X10. Called without [blank], [update_missing] leaves no absent value in a
    table with unique labels: every cell of the result is a text or a
    number. *)
Theorem update_missing_fills_absent (miss_val log_skip_val : string)
    (miss_additions logskip_additions : list cell)
    (t : table) (j i : nat) (v' : cell) :
  NoDup (columns t) ->
  cell_at (update_missing miss_val log_skip_val miss_additions
             logskip_additions false t) j i = Some v' ->
  isna v' = false.
Proof.
  intros Hn H. rewrite cell_at_update_missing in H by assumption.
  destruct (label_at t j) as [l|]; [|discriminate].
  destruct (cell_at t j i) as [v|]; [|discriminate].
  inversion H; subst v'. apply um_cell_notna.
Qed.

Lemma update_missing_fills_absent_witness :
  isna (Str "-99") = false.
Proof.
  apply (update_missing_fills_absent "-99" "-98" [] []
           [mkcol "FNAME" DObject [PyNone; Str "M"];
            mkcol "Q1" DObject [NaN; NA]] 1%nat 1%nat (Str "-99")
           (unique_NoDup ["FNAME"; "Q1"] eq_refl)).
  reflexivity.
Defined.

(** X11. Called with [blank], and with no absent value among the caller's extra
    markers, [update_missing] leaves an absent cell absent: the blanks are
    then the business of [update_blanks]. *)
Theorem update_missing_blank_keeps_absent (miss_val log_skip_val : string)
    (miss_additions logskip_additions : list cell)
    (t : table) (j i : nat) (v : cell) :
  NoDup (columns t) ->
  (forall k, In k miss_additions -> isna k = false) ->
  (forall k, In k logskip_additions -> isna k = false) ->
  cell_at t j i = Some v ->
  isna v = true ->
  cell_at (update_missing miss_val log_skip_val miss_additions
             logskip_additions true t) j i = Some v.
Proof.
  intros Hn Hm Hk Hv Hna.
  destruct (cell_at_label_of t j i v Hv) as [l Hl].
  rewrite cell_at_update_missing, Hl, Hv by assumption. f_equal.
  unfold um_cell. cbv zeta iota.
  assert (E1 : (if is_name_col l then v
                else replace_cell [(Str "M", ".M"); (Str "L", ".L")] v) = v).
  { destruct (is_name_col l); [reflexivity|].
    apply replace_cell_isna.
    destruct (replace_cell_cases [(Str "M", ".M"); (Str "L", ".L")] v)
      as [E|[x E]]; [now rewrite E|].
    exfalso. unfold replace_cell in E. simpl in E.
    rewrite !mask_Str_isna in E by assumption. rewrite E in Hna. discriminate. }
  rewrite E1, (replace_cell_dict_of _ miss_val v), marked_extend.
  rewrite !(marked_absent _ v Hna), (existsb_isna_false _ Hm). simpl.
  rewrite replace_cell_dict_of, marked_extend.
  rewrite !(marked_absent _ v Hna), (existsb_isna_false _ Hk), orb_false_r.
  now destruct (has_name_col t).
Qed.

Lemma update_missing_blank_keeps_absent_witness :
  cell_at (update_missing "-99" "-98" [Str "N"] [] true
             [mkcol "Q1" DObject [NaN; Str ".M"]]) 0 0
  = Some NaN.
Proof.
  apply (update_missing_blank_keeps_absent "-99" "-98" [Str "N"] []
           [mkcol "Q1" DObject [NaN; Str ".M"]] 0%nat 0%nat NaN
           (unique_NoDup ["Q1"] eq_refl)).
  - intros k [<-|[]]. reflexivity.
  - intros k [].
  - reflexivity.
  - reflexivity.
Defined.

Lemma um_cell_default_fixed (blank named name_col : bool) (s : string) :
  s = ".M" \/ s = ".L" ->
  um_cell ".M" ".L" [] [] blank named name_col (Str s) = Str s.
Proof. intros [-> | ->]; destruct blank, named, name_col; reflexivity. Qed.

Lemma um_cell_default_idem (blank named name_col : bool) (v : cell) :
  um_cell ".M" ".L" [] [] blank named name_col
    (um_cell ".M" ".L" [] [] blank named name_col v)
  = um_cell ".M" ".L" [] [] blank named name_col v.
Proof.
  destruct (um_cell_cases ".M" ".L" [] [] blank named name_col v)
    as [E|[E|E]]; rewrite E.
  - exact E.
  - apply um_cell_default_fixed. now left.
  - apply um_cell_default_fixed. now right.
Qed.

Lemma update_missing_default_cells (blank : bool) (t : table) (j i : nat) :
  NoDup (columns t) ->
  cell_at (update_missing ".M" ".L" [] [] blank
             (update_missing ".M" ".L" [] [] blank t)) j i
  = cell_at (update_missing ".M" ".L" [] [] blank t) j i.
Proof.
  intro Hn.
  pose proof (columns_update_missing ".M" ".L" [] [] blank t) as Hc.
  rewrite (cell_at_update_missing ".M" ".L" [] [] blank
             (update_missing ".M" ".L" [] [] blank t))
    by (now rewrite Hc).
  rewrite (label_at_columns _ _ j Hc), (has_name_col_columns _ _ Hc).
  rewrite cell_at_update_missing by assumption.
  destruct (label_at t j) as [l|]; [|reflexivity].
  destruct (cell_at t j i) as [v|]; [|reflexivity].
  now rewrite um_cell_default_idem.
Qed.

(** X12. With the missing and logical-skip values [full_prep] passes by default
    ([.M] and [.L]) and no extra markers, a second [update_missing] changes
    no cell of a table with unique labels. *)
Theorem update_missing_default_idempotent (blank : bool) (t : table)
    (j i : nat) :
  NoDup (columns t) ->
  cell_at (update_missing ".M" ".L" [] [] blank
             (update_missing ".M" ".L" [] [] blank t)) j i
  = cell_at (update_missing ".M" ".L" [] [] blank t) j i.
Proof. apply update_missing_default_cells. Qed.

Lemma update_missing_default_idempotent_witness :
  cell_at (update_missing ".M" ".L" [] [] false
             (update_missing ".M" ".L" [] [] false
                [mkcol "FNAME" DObject [Str "M"];
                 mkcol "Q1" DObject [Str "L"]])) 1 0
  = cell_at (update_missing ".M" ".L" [] [] false
               [mkcol "FNAME" DObject [Str "M"];
                mkcol "Q1" DObject [Str "L"]]) 1 0.
Proof.
  apply (update_missing_default_idempotent false
           [mkcol "FNAME" DObject [Str "M"]; mkcol "Q1" DObject [Str "L"]]
           1%nat 0%nat (unique_NoDup ["FNAME"; "Q1"] eq_refl)).
Defined.

Lemma blank_not_ML (v : cell) :
  isna v = true \/ In v [Str " "; Str ""; Str "."; Str "nan"; Str "NaN"] ->
  v <> Str "M" /\ v <> Str "L".
Proof.
  intros [H|H].
  - split; intros ->; discriminate H.
  - simpl in H. split; intros ->; intuition discriminate.
Qed.

(** X13. Called without [blank], [update_missing] turns every blank cell (an
    absent value, the empty text, the blank, [.], [nan], [NaN]) into
    [miss_val], in every column of a table with unique labels, as long as
    [miss_val] is not itself looked for as a logical skip. *)
Theorem update_missing_folds_blanks (miss_val log_skip_val : string)
    (miss_additions logskip_additions : list cell)
    (t : table) (j i : nat) (v : cell) :
  NoDup (columns t) ->
  miss_val <> ".L" -> miss_val <> "L" ->
  ~ In (Str miss_val) logskip_additions ->
  cell_at t j i = Some v ->
  isna v = true \/ In v [Str " "; Str ""; Str "."; Str "nan"; Str "NaN"] ->
  cell_at (update_missing miss_val log_skip_val miss_additions
             logskip_additions false t) j i = Some (Str miss_val).
Proof.
  intros Hn H1 H2 Hk Hv Hb.
  destruct (cell_at_label_of t j i v Hv) as [l Hl].
  rewrite cell_at_update_missing, Hl, Hv by assumption. f_equal.
  unfold um_cell. cbv zeta iota.
  assert (E1 : (if is_name_col l then v
                else replace_cell [(Str "M", ".M"); (Str "L", ".L")] v) = v).
  { destruct (is_name_col l); [reflexivity|].
    destruct (blank_not_ML v Hb). now apply replace_ML_other. }
  rewrite E1, (replace_cell_dict_of _ miss_val v), marked_extend.
  assert (E2 : marked [Str ".M"; Str ""; Str " "; Str "nan"; Str "NaN"; NA; NaN;
                       Str "."] v = true).
  { destruct Hb as [Hb|Hb].
    - now rewrite (marked_absent _ v Hb).
    - simpl in Hb.
      destruct Hb as [<-|[<-|[<-|[<-|[<-|[]]]]]]; reflexivity. }
  rewrite E2. simpl orb. cbv iota.
  rewrite replace_cell_dict_of, marked_extend.
  rewrite (not_marked logskip_additions miss_val Hk), orb_false_r.
  assert (E3 : marked (if has_name_col t then [Str ".L"]
                       else [Str ".L"; Str "L"]) (Str miss_val) = false).
  { apply not_marked. destruct (has_name_col t); simpl;
      intuition congruence. }
  now rewrite E3.
Qed.

Lemma update_missing_folds_blanks_witness :
  cell_at (update_missing "-99" "-98" [] [] false
             [mkcol "FNAME" DObject [Str ""; Str "M"];
              mkcol "Q1" DObject [NaN; Str "."]]) 0 0
  = Some (Str "-99").
Proof.
  apply (update_missing_folds_blanks "-99" "-98" [] []
           [mkcol "FNAME" DObject [Str ""; Str "M"];
            mkcol "Q1" DObject [NaN; Str "."]] 0%nat 0%nat (Str "")
           (unique_NoDup ["FNAME"; "Q1"] eq_refl)).
  - discriminate.
  - discriminate.
  - simpl. tauto.
  - reflexivity.
  - right. simpl. tauto.
Defined.

(** X14. The two steps [full_prep] takes when [blank] is set, [update_blanks]
    and then [update_missing] with [blank]: a blank cell ends as
    [blank_val], not as [miss_val], as long as [blank_val] is none of "M",
    "L", [.M] and [.L]. *)
Theorem blanks_kept_apart (miss_val log_skip_val blank_val : string)
    (t : table) (j i : nat) (v : cell) :
  NoDup (columns t) ->
  ~ In blank_val ["M"; "L"; ".M"; ".L"] ->
  cell_at t j i = Some v ->
  isna v = true \/ In v [Str " "; Str ""; Str "."; Str "nan"; Str "NaN"] ->
  cell_at (update_missing miss_val log_skip_val [] [] true
             (update_blanks blank_val [] t)) j i = Some (Str blank_val).
Proof.
  intros Hn Hbv Hv Hb.
  assert (Hc : columns (update_blanks blank_val [] t) = columns t)
    by apply columns_replace.
  assert (Hv1 : cell_at (update_blanks blank_val [] t) j i
                = Some (Str blank_val)).
  { unfold update_blanks. rewrite cell_at_replace, Hv. cbn [option_map].
    f_equal. rewrite replace_cell_dict_of, marked_extend.
    assert (M : marked blank_list v = true) by now apply marked_blank_list.
    now rewrite M. }
  destruct (cell_at_label_of t j i v Hv) as [l Hl].
  rewrite cell_at_update_missing by (now rewrite Hc).
  rewrite (label_at_columns _ _ j Hc), Hl, Hv1. f_equal.
  unfold um_cell. cbv zeta iota.
  assert (E1 : (if is_name_col l then Str blank_val
                else replace_cell [(Str "M", ".M"); (Str "L", ".L")]
                       (Str blank_val)) = Str blank_val).
  { destruct (is_name_col l); [reflexivity|].
    apply replace_ML_other; intro E; inversion E; subst;
      apply Hbv; simpl; tauto. }
  rewrite E1, (replace_cell_dict_of _ miss_val (Str blank_val)).
  assert (E2 : marked (extend [Str ".M"] []) (Str blank_val) = false).
  { apply not_marked. simpl. intros [E|[]]. inversion E. subst.
    apply Hbv. simpl. tauto. }
  rewrite E2, replace_cell_dict_of.
  assert (E3 : marked (extend (if has_name_col (update_blanks blank_val [] t)
                               then [Str ".L"] else [Str ".L"; Str "L"]) [])
                 (Str blank_val) = false).
  { apply not_marked.
    destruct (has_name_col (update_blanks blank_val [] t)); simpl;
      intros H; repeat destruct H as [H|H]; try inversion H; subst;
        try (apply Hbv; simpl; tauto); contradiction. }
  now rewrite E3.
Qed.

Lemma blanks_kept_apart_witness :
  cell_at (update_missing "-99" "-98" [] [] true
             (update_blanks "-97" []
                [mkcol "FNAME" DObject [Str ""; Str "M"];
                 mkcol "Q1" DObject [NaN; Str ".M"]])) 1 0
  = Some (Str "-97").
Proof.
  apply (blanks_kept_apart "-99" "-98" "-97"
           [mkcol "FNAME" DObject [Str ""; Str "M"];
            mkcol "Q1" DObject [NaN; Str ".M"]] 1%nat 0%nat NaN
           (unique_NoDup ["FNAME"; "Q1"] eq_refl)).
  - simpl. intuition discriminate.
  - reflexivity.
  - now left.
Defined.

(** ** update_other_missing on the columns it leaves alone, and on texts *)

Lemma Forall2_nth_error {A B : Type} (R : A -> B -> Prop) (l : list A)
    (l' : list B) (j : nat) (x : A) :
  Forall2 R l l' -> nth_error l j = Some x ->
  exists y, nth_error l' j = Some y /\ R x y.
Proof.
  intro H. revert j. induction H as [|a b l l' Hab _ IH]; intros j Hj.
  - destruct j; discriminate.
  - destruct j as [|j]; simpl in *.
    + inversion Hj; subst. eauto.
    + now apply IH.
Qed.

Lemma mapM_all {A B : Type} (f : A -> option B) (g : A -> B) (l : list A) :
  (forall x, In x l -> f x = Some (g x)) -> mapM f l = Some (map g l).
Proof.
  induction l as [|x l IH]; simpl; intro H; [reflexivity|].
  rewrite (H x) by now left. rewrite IH; [reflexivity|].
  intros y Hy. apply H. now right.
Qed.

Lemma dtype_eqb_same (a : dtype) : dtype_eqb a a = true.
Proof. now destruct a. Qed.

Lemma subst_col_left_alone (add_miss_val : cell) (change_to_val : string)
    (exclude_cols : str_or_list) (c : column) :
  left_alone exclude_cols (label c) = true ->
  subst_col add_miss_val change_to_val exclude_cols c = c.
Proof. unfold subst_col. now intros ->. Qed.

Lemma dtype_subst_col_object (add_miss_val : cell) (change_to_val : string)
    (exclude_cols : str_or_list) (c : column) :
  dtype_of c = DObject ->
  dtype_of (subst_col add_miss_val change_to_val exclude_cols c) = DObject.
Proof.
  intro H. unfold subst_col, update_col.
  destruct (left_alone exclude_cols (label c)); [assumption|].
  destruct (forallb isna
              (values (replace_col [(add_miss_val, change_to_val)] c)));
    [assumption|].
  simpl. rewrite H. unfold fit.
  now destruct (forallb (holds DObject) _).
Qed.

Lemma values_subst_col (add_miss_val : cell) (change_to_val : string)
    (exclude_cols : str_or_list) (c : column) :
  values (subst_col add_miss_val change_to_val exclude_cols c)
  = map (fun v => if left_alone exclude_cols (label c) then v
                  else if mask add_miss_val v then Str change_to_val else v)
      (values c).
Proof.
  unfold subst_col. destruct (left_alone exclude_cols (label c)).
  - now rewrite map_id.
  - apply values_update_replace.
Qed.

(** X15. A name-bearing column, and a column the caller excludes, comes out of
    [update_other_missing] exactly as it went in (label, dtype and cells),
    whether the call returns or raises; the labels of the table are
    unique. *)
Theorem update_other_missing_left_alone
    (coerce : dtype -> cell -> option cell) (add_miss_val : cell)
    (change_to_val : string) (exclude_cols : str_or_list)
    (t : table) (j : nat) (c : column) :
  NoDup (columns t) ->
  nth_error t j = Some c ->
  left_alone exclude_cols (label c) = true ->
  nth_error (data_of (update_other_missing coerce add_miss_val change_to_val
                        exclude_cols t)) j = Some c.
Proof.
  intros Hn Hj Hl. rewrite update_other_missing_unfold by assumption.
  destruct (mapM _ t) as [t'|] eqn:Em; simpl.
  - apply mapM_Forall2 in Em.
    destruct (Forall2_nth_error _ _ _ _ _ Em Hj) as [c' [Hj' Hc']].
    rewrite subst_col_left_alone in Hc' by assumption.
    unfold astype_col in Hc'. rewrite dtype_eqb_same in Hc'.
    now inversion Hc'; subst.
  - rewrite nth_error_map, Hj. simpl.
    now rewrite subst_col_left_alone.
Qed.

Lemma update_other_missing_left_alone_witness :
  nth_error (data_of (update_other_missing coerce_dec (Str ".N") "-96"
                        (OneStr "ID")
                        [mkcol "ID" DObject [Str ".N"];
                         mkcol "Q1" DObject [Str ".N"]])) 0
  = Some (mkcol "ID" DObject [Str ".N"]).
Proof.
  apply (update_other_missing_left_alone coerce_dec (Str ".N") "-96"
           (OneStr "ID")
           [mkcol "ID" DObject [Str ".N"]; mkcol "Q1" DObject [Str ".N"]]
           0%nat (mkcol "ID" DObject [Str ".N"])
           (unique_NoDup ["ID"; "Q1"] eq_refl)); reflexivity.
Defined.

(** X16. On a table of [object] columns with unique labels,
    [update_other_missing] always returns, whatever the cast does: in the
    columns that are neither name-bearing nor excluded, the cells equal to
    [add_miss_val] hold [change_to_val], and every other cell is as it
    was. *)
Theorem update_other_missing_on_text
    (coerce : dtype -> cell -> option cell) (add_miss_val : cell)
    (change_to_val : string) (exclude_cols : str_or_list) (t : table) :
  NoDup (columns t) ->
  (forall c, In c t -> dtype_of c = DObject) ->
  exists t',
    update_other_missing coerce add_miss_val change_to_val exclude_cols t
    = Returned t'
    /\ forall j i,
         cell_at t' j i
         = match label_at t j, cell_at t j i with
           | Some l, Some v =>
               Some (if left_alone exclude_cols l then v
                     else if mask add_miss_val v then Str change_to_val
                          else v)
           | _, _ => None
           end.
Proof.
  intros Hn Hobj. rewrite update_other_missing_unfold by assumption.
  rewrite (mapM_all _ (subst_col add_miss_val change_to_val exclude_cols)).
  - eexists. split; [reflexivity|]. intros j i.
    apply (cell_at_map _
             (fun l v => if left_alone exclude_cols l then v
                         else if mask add_miss_val v then Str change_to_val
                              else v)).
    apply values_subst_col.
  - intros c Hc. unfold astype_col.
    rewrite (Hobj c Hc), dtype_subst_col_object by auto. reflexivity.
Qed.

Lemma update_other_missing_on_text_witness :
  exists t',
    update_other_missing (fun _ _ => None) (Str ".N") "-96" (StrList [])
      [mkcol "FNAME" DObject [Str ".N"]; mkcol "Q1" DObject [Str ".N"; Str "3"]]
    = Returned t'
    /\ forall j i,
         cell_at t' j i
         = match label_at [mkcol "FNAME" DObject [Str ".N"];
                           mkcol "Q1" DObject [Str ".N"; Str "3"]] j,
                 cell_at [mkcol "FNAME" DObject [Str ".N"];
                          mkcol "Q1" DObject [Str ".N"; Str "3"]] j i with
           | Some l, Some v =>
               Some (if left_alone (StrList []) l then v
                     else if mask (Str ".N") v then Str "-96" else v)
           | _, _ => None
           end.
Proof.
  apply (update_other_missing_on_text (fun _ _ => None) (Str ".N") "-96"
           (StrList [])
           [mkcol "FNAME" DObject [Str ".N"];
            mkcol "Q1" DObject [Str ".N"; Str "3"]]
           (unique_NoDup ["FNAME"; "Q1"] eq_refl)).
  intros c [<-|[<-|[]]]; reflexivity.
Defined.

(** ** convert_num_dtypes and its exclusion list *)

Lemma remove_each_Some_inv (exclude cols cols' : list string) :
  NoDup cols -> remove_each exclude cols = Some cols' ->
  NoDup exclude /\ incl exclude cols.
Proof.
  revert cols. induction exclude as [|c r IH]; simpl; intros cols Hn H.
  - split; [constructor|]. intros y [].
  - destruct (Py.list_remove c cols) as [cols1|] eqn:E1; [|discriminate].
    destruct (list_remove_NoDup c cols cols1 Hn E1) as [Hn1 H1].
    destruct (IH cols1 Hn1 H) as [Hr Hi].
    apply list_remove_Some in E1. destruct E1 as [Hc Hsub].
    split.
    + constructor; [|assumption]. intro Hin. apply Hi, H1 in Hin. tauto.
    + intros y [<-|Hy]; [assumption|]. apply Hsub. now apply Hi.
Qed.

(** X17. On a table with unique labels, [convert_num_dtypes] returns exactly
    when [exclude] names columns of the table and none of them twice; in
    every other case it raises [ValueError] and the table is as it was. *)
Theorem convert_num_dtypes_returns_iff
    (to_numeric : bool -> column -> option column) (exclude : list string)
    (as_int : bool) (t : table) :
  NoDup (columns t) ->
  ((exists t', convert_num_dtypes to_numeric exclude as_int t = Returned t')
   <-> NoDup exclude /\ incl exclude (columns t))
  /\ (forall e t1,
        convert_num_dtypes to_numeric exclude as_int t = Raised e t1 ->
        e = ValueError /\ t1 = t).
Proof.
  intro Hn. unfold convert_num_dtypes. split.
  - split.
    + intros [t' H].
      destruct (remove_each exclude (columns t)) as [cols|] eqn:E;
        [|discriminate].
      now apply (remove_each_Some_inv exclude (columns t) cols).
    + intros [He Hi].
      destruct (remove_each_Some exclude (columns t) Hn He Hi) as [cols [E _]].
      rewrite E. eauto.
  - intros e t1 H.
    destruct (remove_each exclude (columns t)); [discriminate|].
    inversion H. auto.
Qed.

Lemma convert_num_dtypes_returns_iff_witness :
  (exists t',
      convert_num_dtypes to_numeric_dec ["Q1"; "Q1"] false
        [mkcol "Q1" DObject [Str "1"]; mkcol "Q2" DObject [Str "2"]]
      = Returned t')
  <-> NoDup ["Q1"; "Q1"]
      /\ incl ["Q1"; "Q1"]
           (columns [mkcol "Q1" DObject [Str "1"]; mkcol "Q2" DObject [Str "2"]]).
Proof.
  apply (convert_num_dtypes_returns_iff to_numeric_dec ["Q1"; "Q1"] false
           [mkcol "Q1" DObject [Str "1"]; mkcol "Q2" DObject [Str "2"]]
           (unique_NoDup ["Q1"; "Q2"] eq_refl)).
Defined.

(** ** set_int_object and the trailing zeros *)

Lemma list_ascii_app (a b : string) :
  list_ascii_of_string (a ++ b)
  = (list_ascii_of_string a ++ list_ascii_of_string b)%list.
Proof. induction a as [|c a IH]; simpl; [reflexivity|]. now rewrite IH. Qed.

Lemma rev_repeat {A : Type} (x : A) (n : nat) : rev (repeat x n) = repeat x n.
Proof.
  induction n as [|n IH]; simpl; [reflexivity|].
  rewrite IH. clear IH. induction n as [|n IH]; simpl; [reflexivity|].
  now rewrite IH.
Qed.

Lemma drop_zeros_repeat (n : nat) (x : list ascii) :
  drop_zeros (repeat "0"%char n ++ "."%char :: x) = "."%char :: x.
Proof. induction n as [|n IH]; simpl; [reflexivity|assumption]. Qed.

Lemma rev_dot_zeros (s : string) (n : nat) :
  rev (list_ascii_of_string (s ++ "." ++ zeros (S n)))
  = ("0"%char :: repeat "0"%char n ++ "."%char :: rev (list_ascii_of_string s))%list.
Proof.
  rewrite !list_ascii_app. unfold zeros.
  rewrite list_ascii_of_string_of_list_ascii.
  change (list_ascii_of_string ".") with ["."%char].
  rewrite rev_app_distr. simpl rev at 1.
  change (rev (repeat "0"%char n) ++ ["0"%char])%list
    with (rev (repeat "0"%char (S n))).
  rewrite rev_repeat. simpl. now rewrite <- app_assoc.
Qed.

Lemma drop_zeros_suffix (r : list ascii) (c : ascii) (x : list ascii) :
  drop_zeros r = c :: x -> In c r.
Proof.
  induction r as [|a r IH]; simpl; [discriminate|].
  destruct (ascii_dec a "0") as [->|Hne].
  - intro H. right. now apply IH.
  - intro H.
    assert (E : a :: r = c :: x).
    { destruct a as [[] [] [] [] [] [] [] []]; try exact H.
      exfalso. now apply Hne. }
    inversion E. now left.
Qed.

Lemma cut_dot_zeros_dot (r r' : list ascii) :
  cut_dot_zeros r = Some r' -> In "."%char r.
Proof.
  unfold cut_dot_zeros. destruct r as [|a r]; [discriminate|].
  destruct (ascii_dec a "0") as [->|Hne].
  - destruct (drop_zeros r) as [|c x] eqn:E; [discriminate|].
    destruct (ascii_dec c ".") as [->|Hc].
    + intros _. right. now apply (drop_zeros_suffix r "." x).
    + destruct c as [[] [] [] [] [] [] [] []]; try discriminate.
      exfalso. now apply Hc.
  - destruct a as [[] [] [] [] [] [] [] []]; try discriminate.
    exfalso. now apply Hne.
Qed.

(** X18. The pattern of [set_int_object] takes a point followed by one or more
    zeros off the end of a text, and also off the end of its last line when
    the text ends with a newline; whatever stands in front is kept. *)
Theorem sub_dot_zeros_strips (s : string) (n : nat) :
  sub_dot_zeros (s ++ "." ++ zeros (S n)) = s
  /\ sub_dot_zeros (s ++ "." ++ zeros (S n) ++ String "010" EmptyString)
     = (s ++ String "010" EmptyString)%string.
Proof.
  split.
  - unfold sub_dot_zeros. rewrite rev_dot_zeros.
    unfold cut_dot_zeros. rewrite drop_zeros_repeat.
    now rewrite rev_involutive, string_of_list_ascii_of_string.
  - unfold sub_dot_zeros.
    assert (E : rev (list_ascii_of_string
                       (s ++ "." ++ zeros (S n) ++ String "010" EmptyString))
                = "010"%char
                  :: rev (list_ascii_of_string (s ++ "." ++ zeros (S n)))).
    { rewrite !list_ascii_app. simpl list_ascii_of_string at 4.
      rewrite !app_assoc, rev_app_distr. simpl. now rewrite <- !app_assoc. }
    rewrite E, rev_dot_zeros.
    change (cut_dot_zeros ("010"%char :: _)) with (@None (list ascii)).
    cbv iota. unfold cut_dot_zeros. rewrite drop_zeros_repeat.
    rewrite rev_involutive.
    rewrite <- (string_of_list_ascii_of_string
                  (s ++ String "010" EmptyString)).
    now rewrite list_ascii_app.
Qed.

Lemma sub_dot_zeros_no_point_text (s : string) :
  ~ In "."%char (list_ascii_of_string s) -> sub_dot_zeros s = s.
Proof.
  intro H. unfold sub_dot_zeros.
  assert (Hr : ~ In "."%char (rev (list_ascii_of_string s)))
    by (now rewrite <- in_rev).
  destruct (cut_dot_zeros (rev (list_ascii_of_string s))) as [r'|] eqn:E.
  - apply cut_dot_zeros_dot in E. contradiction.
  - destruct (rev (list_ascii_of_string s)) as [|a r1]; [reflexivity|].
    destruct (ascii_dec a "010") as [->|Hne].
    + destruct (cut_dot_zeros r1) as [r'|] eqn:E1; [|reflexivity].
      apply cut_dot_zeros_dot in E1. exfalso. apply Hr. now right.
    + destruct a as [[] [] [] [] [] [] [] []]; try reflexivity.
      exfalso. now apply Hne.
Qed.



Lemma cell_at_set_int_object (t : table) (j i : nat) :
  cell_at (set_int_object t) j i
  = option_map (fun v => Str (sub_dot_zeros (py_str v))) (cell_at t j i).
Proof.
  unfold set_int_object, set_all_object. rewrite map_map.
  rewrite (cell_at_map _ (fun _ v => Str (sub_dot_zeros (py_str v)))).
  - unfold cell_at, label_at.
    destruct (nth_error t j) as [c|]; simpl; [|reflexivity].
    now destruct (nth_error (values c) i).
  - intro c. destruct (dtype_of c) eqn:E; simpl; rewrite ?E; reflexivity.
Qed.


(** X20. A text without a point (a name, a code) is left as it is by
    [set_int_object]. *)
Theorem set_int_object_keeps_plain_text (t : table) (j i : nat) (s : string) :
  cell_at t j i = Some (Str s) ->
  ~ In "."%char (list_ascii_of_string s) ->
  cell_at (set_int_object t) j i = Some (Str s).
Proof.
  intros Hv Hs. rewrite cell_at_set_int_object, Hv. simpl.
  now rewrite sub_dot_zeros_no_point_text.
Qed.

Lemma set_int_object_keeps_plain_text_witness :
  cell_at (set_int_object [mkcol "FNAME" DObject [Str "Mary Ann"];
                           mkcol "AGE" DInt64 [Int 41]]) 0 0
  = Some (Str "Mary Ann").
Proof.
  apply (set_int_object_keeps_plain_text
           [mkcol "FNAME" DObject [Str "Mary Ann"];
            mkcol "AGE" DInt64 [Int 41]] 0%nat 0%nat "Mary Ann").
  - reflexivity.
  - simpl. intuition discriminate.
Defined.

(** ** update_blanks on what is no marker *)

(** X21. A cell that is no blank marker (not absent, none of the empty text, the
    blank, [.], [nan], [NaN], none of the caller's extras) is left as it
    is by [update_blanks]. *)
Theorem update_blanks_keeps_data (blank_val : string) (extras : list cell)
    (t : table) (j i : nat) (v : cell) :
  cell_at t j i = Some v ->
  isna v = false ->
  ~ In v [Str " "; Str ""; Str "."; Str "nan"; Str "NaN"] ->
  marked extras v = false ->
  cell_at (update_blanks blank_val extras t) j i = Some v.
Proof.
  intros Hv Hna Hout Hm. unfold update_blanks.
  rewrite cell_at_replace, Hv. cbn [option_map]. f_equal.
  rewrite replace_cell_dict_of, marked_extend, Hm, orb_false_r.
  destruct (marked blank_list v) eqn:E; [|reflexivity].
  apply marked_blank_list in E. destruct E as [E|E]; [congruence|contradiction].
Qed.

Lemma update_blanks_keeps_data_witness :
  cell_at (update_blanks "-97" [] [mkcol "Q1" DObject [Str ""; Str "  "]]) 0 1
  = Some (Str "  ").
Proof.
  apply (update_blanks_keeps_data "-97" []
           [mkcol "Q1" DObject [Str ""; Str "  "]] 0%nat 1%nat (Str "  ")).
  - reflexivity.
  - reflexivity.
  - simpl. intuition discriminate.
  - reflexivity.
Defined.

(** ** The loader and its keywords *)

(** X8. When the positional arguments are not one path or one table, the
    loader turns to the keywords: [path] is read first, and [data] is then
    not looked at; [data] alone is loaded as a table in memory is; and with
    neither the call raises [AttributeError]. *)
Theorem init_keyword_fallback (io : readers) (args : list arg) (kw : kwargs) :
  match args with
  | [AStr _] | [AFrame _] => False
  | _ => True
  end ->
  (forall path, kw_path kw = Some path ->
                init io args kw = init io [AStr path] kw)
  /\ (forall t, kw_path kw = None -> kw_data kw = Some t ->
                init io args kw = Loaded (map_str t))
  /\ (kw_path kw = None -> kw_data kw = None ->
      init io args kw = Failed AttributeError).
Proof.
  intro Ha.
  assert (E : init io args kw
              = match kw_path kw with
                | Some path =>
                    of_path io path
                      (match kw_delimiter kw with Some d => d | None => "," end)
                      (match kw_keep_missing kw with
                       | Some k => k
                       | None => true
                       end)
                | None =>
                    match kw_data kw with
                    | Some t => Loaded (map_str t)
                    | None => Failed AttributeError
                    end
                end).
  { unfold init. destruct args as [|[p|t|] [|a r]]; try reflexivity;
      contradiction. }
  rewrite E. split; [|split].
  - intros path ->. reflexivity.
  - intros t -> ->. reflexivity.
  - intros -> ->. reflexivity.
Qed.

Lemma init_keyword_fallback_witness :
  init (mkreaders (fun _ _ => []) (fun _ _ => [])) [AOther; AOther]
    (mkkw None None None None)
  = Failed AttributeError.
Proof.
  apply (init_keyword_fallback (mkreaders (fun _ _ => []) (fun _ _ => []))
           [AOther; AOther] (mkkw None None None None) I); reflexivity.
Defined.

(** ** full_prep on its own result *)

Lemma capitalize_cols_upper (t : table) :
  (forall c, In c t -> Py.upper (label c) = label c) ->
  capitalize_cols t = t.
Proof.
  intro H. unfold capitalize_cols. rewrite <- (map_id t) at 2.
  apply map_ext_in. intros c Hc. rewrite (H c Hc). now destruct c.
Qed.

Lemma columns_fix_capitalize (t : table) (l : string) :
  In l (columns (fix_index (capitalize_cols t))) ->
  Py.upper l = l /\ index_artifact l = false.
Proof.
  rewrite fix_index_after_capitalize. unfold columns, capitalize_cols.
  rewrite map_map. intro H. apply in_map_iff in H.
  destruct H as [c [<- Hc]]. apply filter_In in Hc. destruct Hc as [_ Hc].
  simpl. split; [apply upper_idem|].
  unfold index_artifact. rewrite upper_not_unnamed. simpl.
  apply negb_true_iff in Hc. exact Hc.
Qed.

Lemma clean_labels_fixed (t : table) :
  (forall l, In l (columns t) -> Py.upper l = l /\ index_artifact l = false) ->
  fix_index (capitalize_cols t) = t.
Proof.
  intro H. rewrite capitalize_cols_upper.
  - rewrite fix_index_filter. apply filter_all. intros c Hc.
    destruct (H (label c)) as [_ E]; [now apply in_map|]. now rewrite E.
  - intros c Hc. destruct (H (label c)); [now apply in_map|assumption].
Qed.

(** X22. Run with its default values and without [blank] on its own result,
    [full_prep] changes no cell and no label, when the labels of that
    result are unique. *)
Theorem full_prep_default_again (inpt_type inpt_type' : option string)
    (blank_val blank_val' : string) (t : table) (j i : nat) :
  NoDup (columns (full_prep ".M" ".L" false blank_val inpt_type t)) ->
  columns (full_prep ".M" ".L" false blank_val' inpt_type'
             (full_prep ".M" ".L" false blank_val inpt_type t))
  = columns (full_prep ".M" ".L" false blank_val inpt_type t)
  /\ cell_at (full_prep ".M" ".L" false blank_val' inpt_type'
                (full_prep ".M" ".L" false blank_val inpt_type t)) j i
     = cell_at (full_prep ".M" ".L" false blank_val inpt_type t) j i.
Proof.
  unfold full_prep. cbv zeta iota.
  set (t0 := fix_index (capitalize_cols t)).
  intro Hn.
  assert (Hc : columns (update_missing ".M" ".L" [] [] false t0) = columns t0)
    by apply columns_update_missing.
  assert (E : fix_index (capitalize_cols (update_missing ".M" ".L" [] [] false t0))
              = update_missing ".M" ".L" [] [] false t0).
  { apply clean_labels_fixed. intros l Hl. rewrite Hc in Hl.
    now apply (columns_fix_capitalize t). }
  rewrite E. split.
  - apply columns_update_missing.
  - apply update_missing_default_cells. now rewrite <- Hc.
Qed.

Lemma full_prep_default_again_witness :
  cell_at (full_prep ".M" ".L" false "-97" None
             (full_prep ".M" ".L" false "-97" None
                [mkcol "fname" DObject [Str "M"]; mkcol "q1" DObject [Str "L"];
                 mkcol "Unnamed: 0" DObject [Str "0"]])) 1 0
  = cell_at (full_prep ".M" ".L" false "-97" None
               [mkcol "fname" DObject [Str "M"]; mkcol "q1" DObject [Str "L"];
                mkcol "Unnamed: 0" DObject [Str "0"]]) 1 0.
Proof.
  apply (full_prep_default_again None None "-97" "-97"
           [mkcol "fname" DObject [Str "M"]; mkcol "q1" DObject [Str "L"];
            mkcol "Unnamed: 0" DObject [Str "0"]] 1%nat 0%nat).
  exact (unique_NoDup ["FNAME"; "Q1"] eq_refl).
Defined.
